(** * Impact consequence calculator and PHA risk adapter

    A shallow embedding of [app/services/simulation_engine.py]:
    [calculate_damage_from_pair_model] (the PAIR-style damage model)
    and [predict_pha_risk] (the classifier adapter).

    Floating-point values are modelled as extended reals: a finite
    value carries an exact real number, next to the three IEEE-754
    special values.  Operations follow the IEEE-754 / C99 rules for
    the special values, and a finite result whose magnitude exceeds
    the largest binary64 number overflows to an infinity.  Rounding
    error of the individual operations, underflow and the sign of
    zero are not modelled. *)

From Stdlib Require Import Reals Lra Lia ZArith QArith Qreals List String.
From Stdlib Require Import Strings.Byte.
From stdpp Require Import base strings gmap.
Import ListNotations.

Local Open Scope R_scope.

(** ** Python results: a value or a raised exception

    [exn] holds exceptions that derive from [Exception]: those an
    [except Exception] clause catches. *)

Inductive exn : Type :=
  | OverflowError
  | ZeroDivisionError
  | IndexError
  | TypeError
  | ValueError
  | RuntimeError
  | OtherError (msg : string).

Inductive py_result (A : Type) : Type :=
  | Ok (a : A)
  | Raise (e : exn).
Arguments Ok {A} a.
Arguments Raise {A} e.

Definition bind {A B} (m : py_result A) (k : A -> py_result B) : py_result B :=
  match m with
  | Ok a => k a
  | Raise e => Raise e
  end.

Notation "'try' x <- m 'in' k" := (bind m (fun x => k))
  (at level 10, x name, m at level 100, k at level 200).

(** [try: body except Exception as e: handler e], for a body whose
    exceptions all derive from [Exception] and a handler that returns
    normally. *)
Definition try_except {A} (body : py_result A) (handler : exn -> A) : A :=
  match body with
  | Ok a => a
  | Raise e => handler e
  end.

(** ** Floating-point values *)

Inductive xfloat : Type :=
  | Fin (r : R)
  | PInf
  | NInf
  | NaN.

(** Largest finite binary64 value, (2 - 2^-52) * 2^1023. *)
Definition DBL_MAX : R := (2 - / 2 ^ 52) * 2 ^ 1023.

Definition Rltb (a b : R) : bool := if Rlt_dec a b then true else false.
Definition Reqb (a b : R) : bool := if Req_dec_T a b then true else false.

(** A finite exact result, or the infinity it overflows to. *)
Definition overflow (r : R) : xfloat :=
  if Rltb DBL_MAX r then PInf
  else if Rltb r (- DBL_MAX) then NInf
  else Fin r.

Definition fneg (x : xfloat) : xfloat :=
  match x with
  | Fin r => Fin (- r)
  | PInf => NInf
  | NInf => PInf
  | NaN => NaN
  end.

(** The infinity with the sign of [r], and NaN for [r = 0]
    (inf * 0 and 0 / 0 are invalid operations). *)
Definition inf_signed (r : R) : xfloat :=
  if Rltb 0 r then PInf else if Rltb r 0 then NInf else NaN.

Definition fmul (x y : xfloat) : xfloat :=
  match x, y with
  | NaN, _ | _, NaN => NaN
  | Fin a, Fin b => overflow (a * b)
  | Fin a, PInf | PInf, Fin a => inf_signed a
  | Fin a, NInf | NInf, Fin a => inf_signed (- a)
  | PInf, PInf | NInf, NInf => PInf
  | PInf, NInf | NInf, PInf => NInf
  end.

(** Division of numpy scalars: a zero divisor gives an infinity or
    NaN (with a warning), never an exception.  The only zero divisor
    of the program is a product of non-negative factors, a positive
    zero. *)
Definition fdiv (x y : xfloat) : xfloat :=
  match x, y with
  | NaN, _ | _, NaN => NaN
  | Fin a, Fin b => if Reqb b 0 then inf_signed a else overflow (a / b)
  | Fin _, PInf | Fin _, NInf => Fin 0
  | PInf, Fin b => if Rltb b 0 then NInf else PInf
  | NInf, Fin b => if Rltb b 0 then PInf else NInf
  | PInf, PInf | PInf, NInf | NInf, PInf | NInf, NInf => NaN
  end.

Definition fadd (x y : xfloat) : xfloat :=
  match x, y with
  | NaN, _ | _, NaN => NaN
  | Fin a, Fin b => overflow (a + b)
  | PInf, NInf | NInf, PInf => NaN
  | PInf, _ | _, PInf => PInf
  | NInf, _ | _, NInf => NInf
  end.

Definition fsub (x y : xfloat) : xfloat := fadd x (fneg y).

(** [x < y]: false as soon as one side is NaN. *)
Definition flt (x y : xfloat) : bool :=
  match x, y with
  | NaN, _ | _, NaN => false
  | Fin a, Fin b => Rltb a b
  | _, NInf => false
  | NInf, _ => true
  | PInf, _ => false
  | Fin _, PInf => true
  end.

Definition fgt (x y : xfloat) : bool := flt y x.

(** [x <= y]: false as soon as one side is NaN. *)
Definition fle (x y : xfloat) : bool :=
  match x, y with
  | NaN, _ | _, NaN => false
  | Fin a, Fin b => negb (Rltb b a)
  | NInf, _ => true
  | _, PInf => true
  | _, NInf => false
  | PInf, _ => false
  end.

Definition fge (x y : xfloat) : bool := fle y x.

(** ** Powers

    Exponents are the literals of the program, kept as rationals so
    that "is an integer" and "is an odd integer" are decided by
    computation. *)

Definition is_integer (q : Q) : bool := Pos.eqb (Qden (Qred q)) 1.
Definition is_odd_integer (q : Q) : bool :=
  is_integer q && Z.odd (Qnum (Qred q)).
Definition Qpositive (q : Q) : bool := Z.ltb 0 (Qnum q).
Definition Qzero (q : Q) : bool := Z.eqb (Qnum q) 0.

(** The real power of a non-zero base: repeated multiplication for an
    integer exponent, [exp (q * ln x)] otherwise (positive base). *)
Definition rpow (x : R) (q : Q) : R :=
  if is_integer q then powerRZ x (Qnum (Qred q)) else Rpower x (Q2R q).

(** C99 [pow] (Annex F) as numpy applies it to float64 scalars: no
    exception, a pole gives an infinity, an invalid operation NaN. *)
Definition c_pow (x : xfloat) (q : Q) : xfloat :=
  if Qzero q then Fin 1
  else match x with
  | NaN => NaN
  | PInf => if Qpositive q then PInf else Fin 0
  | NInf =>
      if Qpositive q then (if is_odd_integer q then NInf else PInf)
      else Fin 0
  | Fin r =>
      if Reqb r 0 then (if Qpositive q then Fin 0 else PInf)
      else if Rltb r 0 && negb (is_integer q) then NaN
      else overflow (rpow r q)
  end.

(** [x ** q] on built-in Python floats ([float_pow] of CPython): zero
    to a negative power raises ZeroDivisionError and a finite base
    whose power overflows raises OverflowError.  A negative base with
    a non-integer exponent yields a complex number, which this model
    of floats has no value for: it is reported as TypeError; the
    program applies [**] of built-in floats to the exponents 3 and 2
    and to [h = 5.0] only (see [float_pow_integer_real]). *)
Definition float_pow (x : xfloat) (q : Q) : py_result xfloat :=
  if Qzero q then Ok (Fin 1)
  else match x with
  | Fin r =>
      if Reqb r 0 then
        (if Qpositive q then Ok (Fin 0) else Raise ZeroDivisionError)
      else if Rltb r 0 && negb (is_integer q) then Raise TypeError
      else match c_pow x q with
           | PInf | NInf => Raise OverflowError
           | y => Ok y
           end
  | _ => Ok (c_pow x q)
  end.

(** ** numpy functions *)

Definition np_pi : xfloat := Fin PI.

(** [np.radians x = x * (pi / 180)]. *)
Definition np_radians (x : xfloat) : xfloat := fmul x (Fin (PI / 180)).

Definition np_sin (x : xfloat) : xfloat :=
  match x with
  | Fin r => Fin (sin r)
  | _ => NaN
  end.

Definition np_sqrt (x : xfloat) : xfloat :=
  match x with
  | Fin r => if Rltb r 0 then NaN else Fin (sqrt r)
  | PInf => PInf
  | NInf | NaN => NaN
  end.

(** Round to the nearest integer, ties to the even one. *)
Definition rne (r : R) : Z :=
  let f := Int_part r in
  let d := r - IZR f in
  if Rltb d (1 / 2) then f
  else if Rltb (1 / 2) d then (f + 1)%Z
  else if Z.even f then f else (f + 1)%Z.

Definition np_rint (x : xfloat) : xfloat :=
  match x with
  | Fin r => Fin (IZR (rne r))
  | _ => x
  end.

(** [round(x, 2)] on a float64 scalar: scale by 100, round to the
    nearest integer, scale back.  On the built-in floats the program
    rounds (5.0 and 0.0) Python's own [round] agrees with it. *)
Definition round2 (x : xfloat) : xfloat :=
  fdiv (np_rint (fmul x (Fin 100))) (Fin 100).

(** Python's [max(a, b)]: [b] replaces [a] only if [b > a]. *)
Definition pymax (a b : xfloat) : xfloat := if fgt b a then b else a.

(** ** The damage model

    The parameters are built-in Python floats.  [np.sin] returns a
    numpy float64, so the kinetic energy and everything computed from
    it ([E], the radii) are float64 scalars, whose operations signal
    a division by zero or an invalid operation by a warning and an
    infinite or NaN result, not by an exception.  The radius, the
    volume, the mass, the velocity and the altitude [h] are built-in
    floats; among their operations only [**] can raise. *)

Record results : Type := {
  energia_megatons : xfloat;
  altitude_explosao_km : xfloat;
  raio_dano_explosao_km : xfloat;
  raio_dano_termico_km : xfloat;
  raio_dano_final_km : xfloat;
  kinetic_energy_joules : xfloat
}.

Section Damage.

Variables (diameter_km velocity_km_s impact_angle
           densidade_rho eficiencia_eta : xfloat).

Definition raio_m : xfloat := fdiv (fmul diameter_km (Fin 1000)) (Fin 2).
Definition velocidade_m_s : xfloat := fmul velocity_km_s (Fin 1000).

Definition volume_m3 : py_result xfloat :=
  try cube <- float_pow raio_m 3 in
  Ok (fmul (fmul (Fin (4 / 3)) np_pi) cube).

Definition massa_kg : py_result xfloat :=
  try volume <- volume_m3 in
  Ok (fmul densidade_rho volume).

Definition energia_cinetica_j : py_result xfloat :=
  try massa <- massa_kg in
  try v2 <- float_pow velocidade_m_s 2 in
  Ok (fmul (fmul (fmul (Fin 0.5) massa) v2)
           (np_sin (np_radians impact_angle))).

Definition energia_E_megatons (energia_j : xfloat) : xfloat :=
  fdiv energia_j (Fin 4.184e15).

Definition altitude_h_km : xfloat :=
  if flt diameter_km (Fin 0.05) then Fin 5 else Fin 0.

Definition raio_blast_airburst (E h : xfloat) : py_result xfloat :=
  try hp <- float_pow h (-449 # 1000) in
  try h2 <- float_pow h 2 in
  Ok (fadd (fmul (fmul (fmul (Fin 2.09) hp) h2) (c_pow E (-1 # 3)))
           (fmul (Fin 5.08) (c_pow E (1 # 3)))).

Definition raio_blast_ground (E : xfloat) : xfloat :=
  fmul (Fin 5.08) (c_pow E (1 # 3)).

Definition raio_blast_km (E h : xfloat) : py_result xfloat :=
  if fgt h (Fin 0) then raio_blast_airburst E h
  else Ok (raio_blast_ground E).

Definition Zi (E : xfloat) : xfloat := fmul (Fin 0.42) (c_pow E (1 # 6)).

Definition r_sq (E : xfloat) : xfloat :=
  fdiv (fmul eficiencia_eta E) (fmul (fmul (Fin 2) np_pi) (Zi E)).

Definition h_sq (h : xfloat) : py_result xfloat := float_pow h 2.

Definition raio_thermal_km (E h : xfloat) : py_result xfloat :=
  try hs <- h_sq h in
  Ok (if fgt (r_sq E) hs then np_sqrt (fsub (r_sq E) hs) else Fin 0).

(** The body of the [try] block, lines 67 to 115. *)
Definition calculate_damage_body : py_result results :=
  try energia_j <- energia_cinetica_j in
  let E := energia_E_megatons energia_j in
  let h := altitude_h_km in
  try raio_blast <- raio_blast_km E h in
  try raio_thermal <- raio_thermal_km E h in
  Ok {| energia_megatons := round2 E;
        altitude_explosao_km := round2 h;
        raio_dano_explosao_km := round2 raio_blast;
        raio_dano_termico_km := round2 raio_thermal;
        raio_dano_final_km := round2 (pymax raio_blast raio_thermal);
        kinetic_energy_joules := energia_j |}.

(** [None] is the value returned by the [except Exception] clause. *)
Definition calculate_damage_from_pair_model : option results :=
  try_except (try r <- calculate_damage_body in Ok (Some r))
             (fun _ => None).

End Damage.

(** ** The classifier adapter *)

(** One entry of what the classifier returns. *)
Inductive label : Type :=
  | LBool (b : bool)
  | LInt (z : Z)
  | LFloat (x : xfloat).

(** [bool(v)]: a number is true unless it is zero; NaN is true. *)
Definition py_bool (v : label) : bool :=
  match v with
  | LBool b => b
  | LInt z => negb (Z.eqb z 0)
  | LFloat (Fin r) => negb (Reqb r 0)
  | LFloat _ => true
  end.

(** [seq[0]]. *)
Definition getitem0 {A} (seq : list A) : py_result A :=
  match seq with
  | x :: _ => Ok x
  | [] => Raise IndexError
  end.

Record DataFrame : Type := {
  columns : list string;
  rows : list (list xfloat)
}.

(** [pd.DataFrame([d], columns=cols)]: one row, the columns in the
    order of [cols]; a key missing from [d] gives NaN and a key of
    [d] that is not in [cols] is dropped. *)
Definition DataFrame_of_dict (d : gmap string xfloat) (cols : list string)
  : DataFrame :=
  {| columns := cols;
     rows := [List.map (fun k => default NaN (d !! k)) cols] |}.

(** *** Calls into library code

    Code of a library (the classifier, joblib, pickle) may return,
    raise an exception that derives from [Exception], or raise one
    that derives from [BaseException] only, which an
    [except Exception] clause does not catch. *)
Inductive base_exn : Type :=
  | KeyboardInterrupt
  | SystemExit
  | GeneratorExit.

Inductive call_result (A : Type) : Type :=
  | Returns (a : A)
  | Fails (e : exn)
  | Aborts (b : base_exn).
Arguments Returns {A} a.
Arguments Fails {A} e.
Arguments Aborts {A} b.

Definition bind_call {A B} (m : call_result A) (k : A -> call_result B)
  : call_result B :=
  match m with
  | Returns a => k a
  | Fails e => Fails e
  | Aborts b => Aborts b
  end.

Notation "'call' x <- m 'in' k" := (bind_call m (fun x => k))
  (at level 10, x name, m at level 100, k at level 200).

Definition of_py_result {A} (r : py_result A) : call_result A :=
  match r with
  | Ok a => Returns a
  | Raise e => Fails e
  end.

(** [try: body except Exception as e: handler e]. *)
Definition except_Exception {A} (body : call_result A)
    (handler : exn -> call_result A) : call_result A :=
  match body with
  | Returns a => Returns a
  | Fails e => handler e
  | Aborts b => Aborts b
  end.

(** The externally trained model: all the adapter uses of it is
    [predict].  An object without a usable [predict] is a classifier
    whose [predict] fails. *)
Record Classifier : Type := {
  predict : DataFrame -> call_result (list label)
}.

(** [load_model]: joblib first, pickle second; when both fail the
    second failure is turned into a RuntimeError.  What a loader
    returns is the object stored in the file: a classifier, or
    [None]. *)
Definition load_model
    (joblib_load pickle_load : call_result (option Classifier))
  : call_result (option Classifier) :=
  except_Exception joblib_load (fun _ =>
    except_Exception pickle_load (fun _ => Fails RuntimeError)).

(** The module-level handle of lines 29 to 34: [None] when loading
    raised an exception; an exception that is not caught ends the
    import. *)
Definition PHA_CLASSIFIER_MODEL
    (joblib_load pickle_load : call_result (option Classifier))
  : call_result (option Classifier) :=
  except_Exception (load_model joblib_load pickle_load)
                   (fun _ => Returns None).

Definition features_order : list string :=
  ["absolute_magnitude_h"; "diameter_km_avg"; "velocity_km_s";
   "miss_distance_km"; "kinetic_energy_joules"]%string.

Definition input_df (features_dict : gmap string xfloat) : DataFrame :=
  DataFrame_of_dict features_dict features_order.

Definition predict_pha_risk (model : option Classifier)
    (features_dict : gmap string xfloat) : call_result bool :=
  match model with
  | None => Returns false
  | Some m =>
      except_Exception
        (call prediction <- predict m (input_df features_dict) in
         call first <- of_py_result (getitem0 prediction) in
         Returns (py_bool first))
        (fun _ => Returns false)
  end.

(** A classifier whose prediction always fails. *)
Definition failing_classifier : Classifier :=
  {| predict := fun _ => Fails ValueError |}.

(** A classifier that flags every row. *)
Definition flagging_classifier : Classifier :=
  {| predict := fun df => Returns (List.map (fun _ => LInt 1) (rows df)) |}.

(** A classifier whose prediction is interrupted from the keyboard. *)
Definition interrupted_classifier : Classifier :=
  {| predict := fun _ => Aborts KeyboardInterrupt |}.

(** ** main.py: fetching the model file

    The file system is a map from paths to the bytes of the regular
    files, next to the set of the paths that are directories; the
    network and the operating system are a record of what each call
    answers.  A state holds the file system and the log of the
    requests sent so far. *)

Record Request : Type := {
  request_id : string;
  request_confirm : option string
}.

Record Response : Type := {
  http_error : option exn;
  cookies : list (string * string);
  chunks : list (list Byte.byte);
  stream_error : option exn
}.

(** [mkdir_parents] answers with the directories the call made
    (the parent of the path and its missing ancestors, as far as it
    got) and with its outcome. *)
Record Remote : Type := {
  mkdir_parents : string -> list string * py_result unit;
  session_get : Request -> py_result Response;
  open_wb : string -> py_result unit
}.

Record machine : Type := {
  files : gmap string (list Byte.byte);
  directories : gset string;
  sent : list Request
}.

(** [Path(p).exists()]: a regular file or a directory is there. *)
Definition path_exists (st : machine) (p : string) : bool :=
  match files st !! p with
  | Some _ => true
  | None => bool_decide (p ∈ directories st)
  end.

(** Computations that thread the state and may raise. *)
Definition M (A : Type) : Type := machine -> py_result A * machine.

Definition bindM {A B} (m : M A) (k : A -> M B) : M B :=
  fun st =>
    match m st with
    | (Ok a, st') => k a st'
    | (Raise e, st') => (Raise e, st')
    end.

Definition retM {A} (a : A) : M A := fun st => (Ok a, st).

Definition liftM {A} (r : py_result A) : M A := fun st => (r, st).

Notation "'run' x <- m 'in' k" := (bindM m (fun x => k))
  (at level 10, x name, m at level 100, k at level 200).

(** [dest_path.parent.mkdir(parents=True, exist_ok=True)]. *)
Definition make_parents (remote : Remote) (dest_path : string) : M unit :=
  fun st =>
    (snd (mkdir_parents remote dest_path),
     {| files := files st;
        directories := list_to_set (fst (mkdir_parents remote dest_path))
                       ∪ directories st;
        sent := sent st |}).

(** [session.get(URL, params=..., stream=True)]. *)
Definition send (remote : Remote) (request : Request) : M Response :=
  fun st =>
    (session_get remote request,
     {| files := files st;
        directories := directories st;
        sent := sent st ++ [request] |}).

(** [response.raise_for_status()]. *)
Definition raise_for_status (response : Response) : M unit :=
  liftM (match http_error response with
         | Some e => Raise e
         | None => Ok tt
         end).

(** [next((value for key, value in response.cookies.items()
          if key.startswith('download_warning')), None)]. *)
Definition download_warning_token (items : list (string * string))
  : option string :=
  match List.find (fun kv => String.prefix "download_warning" (fst kv)) items with
  | Some kv => Some (snd kv)
  | None => None
  end.

(** [if token:] for a token that is [None] or a string. *)
Definition truthy (token : option string) : bool :=
  match token with
  | Some t => negb (String.eqb t "")
  | None => false
  end.

(** The loop over [response.iter_content(32768)]: every non-empty
    chunk is appended. *)
Definition write_chunks (cs : list (list Byte.byte)) : list Byte.byte :=
  fold_left (fun content chunk =>
               match chunk with
               | [] => content
               | _ => content ++ chunk
               end) cs [].

(** [with open(dest_path, "wb") as f: ...]: opening creates or
    truncates the file; the chunks received before the stream fails,
    if it does, stay in it. *)
Definition write_file (remote : Remote) (dest_path : string)
    (response : Response) : M unit :=
  run _ <- liftM (open_wb remote dest_path) in
  fun st =>
    (match stream_error response with
     | Some e => Raise e
     | None => Ok tt
     end,
     {| files := <[dest_path := write_chunks (chunks response)]> (files st);
        directories := directories st;
        sent := sent st |}).

(** The body of the [try] block of [download_from_drive]. *)
Definition download_body (remote : Remote) (file_id dest_path : string)
  : M unit :=
  run _ <- make_parents remote dest_path in
  run response <- send remote {| request_id := file_id;
                                 request_confirm := None |} in
  run _ <- raise_for_status response in
  let token := download_warning_token (cookies response) in
  run response <-
    (if truthy token
     then run response <- send remote {| request_id := file_id;
                                         request_confirm := token |} in
          run _ <- raise_for_status response in
          retM response
     else retM response) in
  write_file remote dest_path response.

(** Both [except] clauses return [False]. *)
Definition download_from_drive (remote : Remote) (file_id dest_path : string)
    (st : machine) : bool * machine :=
  match download_body remote file_id dest_path st with
  | (Ok _, st') => (true, st')
  | (Raise _, st') => (false, st')
  end.

Definition ensure_model (remote : Remote) (model_path file_id : string)
    (st : machine) : bool * machine :=
  if path_exists st model_path then (true, st)
  else download_from_drive remote file_id model_path st.

Definition MODEL_PATH : string := "ml_models/pha_classifier.pkl".
Definition MODEL_ID : string := "1nrKe7WgEuih3OxmUrAeTwpoeJPEvNbef".

(** Lines 67 to 70: the process exits with status 1 when the model
    cannot be ensured and goes on to serve the API otherwise. *)
Inductive startup_outcome : Type :=
  | Exited (status : Z)
  | Serving.

Definition startup (remote : Remote) (st : machine) : startup_outcome * machine :=
  match ensure_model remote MODEL_PATH MODEL_ID st with
  | (true, st') => (Serving, st')
  | (false, st') => (Exited 1, st')
  end.

(** A server whose stream breaks after one byte, on a machine where
    every system call succeeds. *)
Definition interrupted_remote : Remote :=
  {| mkdir_parents := fun _ => ([], Ok tt);
     session_get := fun _ =>
       Ok {| http_error := None;
             cookies := [];
             chunks := [[x50]];
             stream_error := Some (OtherError "connection reset") |};
     open_wb := fun _ => Ok tt |}.

(** A machine with no network at all. *)
Definition offline_remote : Remote :=
  {| mkdir_parents := fun _ => ([], Ok tt);
     session_get := fun _ => Raise (OtherError "no route to host");
     open_wb := fun _ => Ok tt |}.

(** A server that answers at once with a two-byte body. *)
Definition steady_remote : Remote :=
  {| mkdir_parents := fun _ => ([], Ok tt);
     session_get := fun _ =>
       Ok {| http_error := None;
             cookies := [];
             chunks := [[x50]; []; [x4b]];
             stream_error := None |};
     open_wb := fun _ => Ok tt |}.

Definition fresh_machine : machine :=
  {| files := ∅; directories := ∅; sent := [] |}.

(** A machine on which the model path is a directory. *)
Definition directory_machine : machine :=
  {| files := ∅; directories := {[ MODEL_PATH ]}; sent := [] |}.

(** ** The formulas as the specification words them

    These follow the text of the specification (real-valued powers,
    no exceptions) and are compared with the code above. *)

(** Blast radius of an airburst:
    2.09 * h^(-0.449) * h^2 * E^(-1/3) + 5.08 * E^(1/3). *)
Definition airburst_formula (E h : xfloat) : xfloat :=
  fadd (fmul (fmul (fmul (Fin 2.09) (c_pow h (-449 # 1000))) (c_pow h 2))
             (c_pow E (-1 # 3)))
       (fmul (Fin 5.08) (c_pow E (1 # 3))).

(** Blast radius of a ground impact: 5.08 * E^(1/3). *)
Definition ground_formula (E : xfloat) : xfloat :=
  fmul (Fin 5.08) (c_pow E (1 # 3)).

(** Thermal radius: with Zi = 0.42 * E^(1/6),
    r_sq = (eta * E) / (2 * pi * Zi) and h_sq = h^2, the square root
    of r_sq - h_sq when r_sq > h_sq and 0.0 otherwise. *)
Definition thermal_formula (eta E h : xfloat) : xfloat :=
  let Zi := fmul (Fin 0.42) (c_pow E (1 # 6)) in
  let r_sq := fdiv (fmul eta E) (fmul (fmul (Fin 2) np_pi) Zi) in
  let h_sq := c_pow h 2 in
  if fgt r_sq h_sq then np_sqrt (fsub r_sq h_sq) else Fin 0.

(** Kinetic energy: 0.5 * mass * velocity^2 * sin(radians(angle)),
    with mass = density * (4/3) * pi * (diameter * 1000 / 2)^3 and
    velocity in m/s = velocity in km/s * 1000. *)
Definition kinetic_energy_formula (diameter velocity angle density : xfloat)
  : xfloat :=
  let radius_m := fdiv (fmul diameter (Fin 1000)) (Fin 2) in
  let mass_kg :=
    fmul density (fmul (fmul (Fin (4 / 3)) np_pi) (c_pow radius_m 3)) in
  let velocity_m_s := fmul velocity (Fin 1000) in
  fmul (fmul (fmul (Fin 0.5) mass_kg) (c_pow velocity_m_s 2))
       (np_sin (np_radians angle)).

(** The dictionary of lines 106 to 113, from the kinetic energy, for
    the altitude the diameter selects. *)
Definition results_of (diameter_km eficiencia_eta energia_j : xfloat) : results :=
  let E := energia_E_megatons energia_j in
  let h := altitude_h_km diameter_km in
  let raio_blast :=
    if flt diameter_km (Fin 0.05) then airburst_formula E (Fin 5)
    else ground_formula E in
  let raio_thermal := thermal_formula eficiencia_eta E h in
  {| energia_megatons := round2 E;
     altitude_explosao_km := round2 h;
     raio_dano_explosao_km := round2 raio_blast;
     raio_dano_termico_km := round2 raio_thermal;
     raio_dano_final_km := round2 (pymax raio_blast raio_thermal);
     kinetic_energy_joules := energia_j |}.

(** ** Comparing two runs

    [shrinks x y]: when [y] is finite, [x] is finite too and lies
    between zero and [y].  Every arithmetic step of the energy
    computation preserves it, whatever the other operand. *)
Definition shrinks (x y : xfloat) : Prop :=
  match y with
  | Fin ry => exists rx, x = Fin rx /\ (0 <= rx <= ry \/ ry <= rx <= 0)
  | _ => True
  end.

(** * Properties *)

(** ** Comparisons and overflow *)

Lemma Rltb_lt a b : Rltb a b = true <-> a < b.
Proof. unfold Rltb. destruct (Rlt_dec a b); split; intros; try lra; discriminate. Qed.

Lemma Rltb_ge a b : Rltb a b = false <-> b <= a.
Proof. unfold Rltb. destruct (Rlt_dec a b); split; intros; try lra; discriminate. Qed.

Lemma Reqb_eq a b : Reqb a b = true <-> a = b.
Proof. unfold Reqb. destruct (Req_dec_T a b); split; intros; try lra; discriminate. Qed.

Lemma Reqb_neq a b : Reqb a b = false <-> a <> b.
Proof. unfold Reqb. destruct (Req_dec_T a b); split; intros; try lra; discriminate. Qed.

Lemma DBL_MAX_bounds : 1e308 < DBL_MAX < 2e308.
Proof. unfold DBL_MAX. split; lra. Qed.

Lemma DBL_MAX_pos : 0 < DBL_MAX.
Proof. pose proof DBL_MAX_bounds. lra. Qed.

Lemma overflow_fin r : - DBL_MAX <= r <= DBL_MAX -> overflow r = Fin r.
Proof.
  intros [Hl Hu]. unfold overflow.
  rewrite (proj2 (Rltb_ge _ _) Hu), (proj2 (Rltb_ge _ _) Hl). reflexivity.
Qed.

Lemma overflow_pinf r : DBL_MAX < r -> overflow r = PInf.
Proof. intros H. unfold overflow. rewrite (proj2 (Rltb_lt _ _) H). reflexivity. Qed.

Lemma overflow_ninf r : r < - DBL_MAX -> overflow r = NInf.
Proof.
  intros H. pose proof DBL_MAX_pos. unfold overflow.
  rewrite (proj2 (Rltb_ge DBL_MAX r)) by lra.
  rewrite (proj2 (Rltb_lt _ _) H). reflexivity.
Qed.

Lemma overflow_cases r :
  (overflow r = Fin r /\ - DBL_MAX <= r <= DBL_MAX) \/
  (overflow r = PInf /\ DBL_MAX < r) \/
  (overflow r = NInf /\ r < - DBL_MAX).
Proof.
  destruct (Rlt_dec DBL_MAX r); [right; left; auto using overflow_pinf|].
  destruct (Rlt_dec r (- DBL_MAX)); [right; right; auto using overflow_ninf|].
  left. split; [apply overflow_fin|]; lra.
Qed.

Lemma overflow_not_nan r : overflow r <> NaN.
Proof. destruct (overflow_cases r) as [[-> _]|[[-> _]|[-> _]]]; discriminate. Qed.

(** ** Rounding to the nearest integer *)

Lemma Int_part_bounds r : IZR (Int_part r) <= r < IZR (Int_part r) + 1.
Proof.
  unfold Int_part. rewrite minus_IZR. destruct (archimed r). lra.
Qed.

Lemma Int_part_unique r z : IZR z <= r < IZR z + 1 -> Int_part r = z.
Proof.
  intros [Hl Hu]. pose proof (Int_part_bounds r) as [Hl' Hu'].
  assert (IZR z < IZR (Int_part r) + 1) as H1 by lra.
  assert (IZR (Int_part r) < IZR z + 1) as H2 by lra.
  rewrite <- plus_IZR in H1, H2. apply lt_IZR in H1, H2. lia.
Qed.

Lemma Int_part_mono a b : a <= b -> (Int_part a <= Int_part b)%Z.
Proof.
  intros H. pose proof (Int_part_bounds a). pose proof (Int_part_bounds b).
  assert (IZR (Int_part a) < IZR (Int_part b) + 1) as Hlt by lra.
  rewrite <- plus_IZR in Hlt. apply lt_IZR in Hlt. lia.
Qed.

Lemma rne_bounds r : (Int_part r <= rne r <= Int_part r + 1)%Z.
Proof.
  unfold rne. repeat destruct (Rltb _ _); try destruct (Z.even _); lia.
Qed.

Lemma rne_IZR z : rne (IZR z) = z.
Proof.
  assert (Int_part (IZR z) = z) as H by (apply Int_part_unique; lra).
  unfold rne. rewrite H. rewrite (proj2 (Rltb_lt _ _)) by lra. reflexivity.
Qed.

Lemma rne_mono a b : a <= b -> (rne a <= rne b)%Z.
Proof.
  intros H. pose proof (Int_part_mono a b H) as Hf.
  pose proof (rne_bounds a). pose proof (rne_bounds b).
  destruct (Z.eq_dec (Int_part a) (Int_part b)) as [E|E]; [|lia].
  clear -H E. unfold rne. rewrite E.
  set (f := Int_part b).
  destruct (Rltb (a - IZR f) (1 / 2)) eqn:A1;
    destruct (Rltb (b - IZR f) (1 / 2)) eqn:B1;
    destruct (Rltb (1 / 2) (a - IZR f)) eqn:A2;
    destruct (Rltb (1 / 2) (b - IZR f)) eqn:B2;
    try destruct (Z.even f); try lia;
    rewrite ?Rltb_lt, ?Rltb_ge in *; lra.
Qed.

(** ** Evaluation of the operations on finite values *)

Lemma fmul_fin a b :
  - DBL_MAX <= a * b <= DBL_MAX -> fmul (Fin a) (Fin b) = Fin (a * b).
Proof. apply overflow_fin. Qed.

Lemma fdiv_fin a b :
  b <> 0 -> - DBL_MAX <= a / b <= DBL_MAX -> fdiv (Fin a) (Fin b) = Fin (a / b).
Proof.
  intros Hb H. simpl. rewrite (proj2 (Reqb_neq _ _) Hb). now apply overflow_fin.
Qed.

Lemma inf_signed_pos r : 0 < r -> inf_signed r = PInf.
Proof. intros H. unfold inf_signed. now rewrite (proj2 (Rltb_lt _ _) H). Qed.

Lemma inf_signed_neg r : r < 0 -> inf_signed r = NInf.
Proof.
  intros H. unfold inf_signed.
  rewrite (proj2 (Rltb_ge 0 r)) by lra. now rewrite (proj2 (Rltb_lt _ _) H).
Qed.

Lemma inf_signed_zero r : r = 0 -> inf_signed r = NaN.
Proof.
  intros ->. unfold inf_signed.
  now rewrite !(proj2 (Rltb_ge 0 0)) by lra.
Qed.

Lemma flt_fin a b : flt (Fin a) (Fin b) = true <-> a < b.
Proof. apply Rltb_lt. Qed.

Lemma flt_fin_false a b : flt (Fin a) (Fin b) = false <-> b <= a.
Proof. apply Rltb_ge. Qed.

Lemma fle_fin a b : fle (Fin a) (Fin b) = true <-> a <= b.
Proof.
  simpl. rewrite Bool.negb_true_iff. apply Rltb_ge.
Qed.

Lemma xfloat_nan_dec (x : xfloat) : {x = NaN} + {x <> NaN}.
Proof. destruct x; (now left) || (now right). Qed.

Lemma fle_refl x : x <> NaN -> fle x x = true.
Proof. destruct x; try easy. intros _. apply fle_fin. lra. Qed.

Lemma fle_trans x y z : fle x y = true -> fle y z = true -> fle x z = true.
Proof.
  destruct x, y, z; simpl; try easy.
  rewrite !Bool.negb_true_iff, !Rltb_ge. lra.
Qed.

Lemma fle_antisym x y : fle x y = true -> fle y x = true -> x = y.
Proof.
  destruct x, y; simpl; try easy.
  rewrite !Bool.negb_true_iff, !Rltb_ge. intros. f_equal. lra.
Qed.

Lemma fle_not_flt x y : fle x y = true -> flt y x = false.
Proof.
  destruct x, y; simpl; try easy.
  rewrite Bool.negb_true_iff. auto.
Qed.

Lemma flt_false_fle x y : x <> NaN -> y <> NaN -> flt y x = false -> fle x y = true.
Proof.
  destruct x, y; simpl; try easy. intros _ _ ->. reflexivity.
Qed.

Lemma flt_fle x y : flt x y = true -> fle x y = true.
Proof.
  destruct x, y; simpl; try easy.
  rewrite Bool.negb_true_iff, Rltb_lt, Rltb_ge. lra.
Qed.

(** ** Rounding to two decimals *)

Lemma round2_nan : round2 NaN = NaN.
Proof. reflexivity. Qed.

Lemma round2_pinf : round2 PInf = PInf.
Proof.
  unfold round2. simpl. rewrite inf_signed_pos by lra. simpl.
  now rewrite (proj2 (Rltb_ge 100 0)) by lra.
Qed.

Lemma round2_ninf : round2 NInf = NInf.
Proof.
  unfold round2. simpl. rewrite inf_signed_neg by lra. simpl.
  now rewrite (proj2 (Rltb_ge 100 0)) by lra.
Qed.

Lemma round2_IZR z :
  - DBL_MAX <= IZR z * 100 <= DBL_MAX -> round2 (Fin (IZR z)) = Fin (IZR z).
Proof.
  intros H. pose proof DBL_MAX_pos. unfold round2.
  rewrite fmul_fin by assumption. simpl np_rint.
  replace (IZR z * 100) with (IZR (z * 100)) by (rewrite mult_IZR; reflexivity).
  rewrite rne_IZR, mult_IZR.
  rewrite fdiv_fin; [f_equal; field | lra |].
  replace (IZR z * 100 / 100) with (IZR z) by field.
  assert (0 <= IZR z \/ IZR z <= 0) as [Hz|Hz] by lra; lra.
Qed.

Lemma round2_0 : round2 (Fin 0) = Fin 0.
Proof. apply (round2_IZR 0). pose proof DBL_MAX_pos. lra. Qed.

Lemma round2_5 : round2 (Fin 5) = Fin 5.
Proof. apply (round2_IZR 5). pose proof DBL_MAX_bounds. lra. Qed.

Lemma round2_not_nan x : round2 x = NaN -> x = NaN.
Proof.
  destruct x as [r| | |]; try reflexivity;
    rewrite ?round2_pinf, ?round2_ninf; try discriminate.
  unfold round2. simpl fmul.
  destruct (overflow_cases (r * 100)) as [[-> _]|[[-> _]|[-> _]]]; simpl.
  - rewrite (proj2 (Reqb_neq 100 0)) by lra. intros H.
    now apply overflow_not_nan in H.
  - now rewrite (proj2 (Rltb_ge 100 0)) by lra.
  - now rewrite (proj2 (Rltb_ge 100 0)) by lra.
Qed.

(** ** Monotonicity of the operations *)

Lemma fle_overflow a b : a <= b -> fle (overflow a) (overflow b) = true.
Proof.
  intros H. pose proof DBL_MAX_pos.
  destruct (overflow_cases a) as [[-> ?]|[[-> ?]|[-> ?]]];
    destruct (overflow_cases b) as [[-> ?]|[[-> ?]|[-> ?]]];
    try reflexivity; try (apply fle_fin); lra.
Qed.

Lemma fle_nan_r x : fle x NaN = false.
Proof. now destruct x. Qed.

Lemma fle_pinf x : x <> NaN -> fle x PInf = true.
Proof. now destruct x. Qed.

Lemma fle_ninf x : x <> NaN -> fle NInf x = true.
Proof. now destruct x. Qed.

Lemma fmul_pos_r_mono c x y :
  0 < c -> fle x y = true ->
  fle (fmul x (Fin c)) (fmul y (Fin c)) = true.
Proof.
  intros Hc H.
  destruct x as [a| | |], y as [b| | |]; simpl in H; try discriminate; simpl;
    rewrite ?(inf_signed_pos c), ?(inf_signed_neg (- c)) by lra;
    try reflexivity;
    try (apply fle_pinf, overflow_not_nan);
    try (apply fle_ninf, overflow_not_nan).
  apply fle_overflow. apply fle_fin in H. nra.
Qed.

Lemma fmul_pos_l_mono c x y :
  0 < c -> fle x y = true ->
  fle (fmul (Fin c) x) (fmul (Fin c) y) = true.
Proof.
  intros Hc H.
  destruct x as [a| | |], y as [b| | |]; simpl in H; try discriminate; simpl;
    rewrite ?(inf_signed_pos c), ?(inf_signed_neg (- c)) by lra;
    try reflexivity;
    try (apply fle_pinf, overflow_not_nan);
    try (apply fle_ninf, overflow_not_nan).
  apply fle_overflow. apply fle_fin in H. nra.
Qed.

Lemma fdiv_pos_r_mono c x y :
  0 < c -> fle x y = true ->
  fle (fdiv x (Fin c)) (fdiv y (Fin c)) = true.
Proof.
  intros Hc H.
  destruct x as [a| | |], y as [b| | |]; simpl in H; try discriminate; simpl;
    rewrite ?(proj2 (Reqb_neq c 0)), ?(proj2 (Rltb_ge c 0)) by lra;
    try reflexivity;
    try (apply fle_pinf, overflow_not_nan);
    try (apply fle_ninf, overflow_not_nan).
  apply fle_overflow. apply fle_fin in H.
  unfold Rdiv. apply Rmult_le_compat_r; [|assumption].
  apply Rlt_le, Rinv_0_lt_compat, Hc.
Qed.

Lemma np_rint_mono x y :
  fle x y = true -> fle (np_rint x) (np_rint y) = true.
Proof.
  destruct x as [a| | |], y as [b| | |]; simpl; try easy.
  rewrite !Bool.negb_true_iff, !Rltb_ge. intros H.
  apply IZR_le, rne_mono, H.
Qed.

Lemma round2_mono x y :
  fle x y = true -> fle (round2 x) (round2 y) = true.
Proof.
  intros H. unfold round2.
  apply fdiv_pos_r_mono; [lra|]. apply np_rint_mono.
  apply fmul_pos_r_mono; [lra|assumption].
Qed.

(** ** Python's max *)

Lemma pymax_nan_l t : pymax NaN t = NaN.
Proof. unfold pymax, fgt. now destruct t. Qed.

Lemma pymax_ge_l b t : b <> NaN -> fle b (pymax b t) = true.
Proof.
  intros Hb. unfold pymax, fgt. destruct (flt b t) eqn:E.
  - now apply flt_fle.
  - now apply fle_refl.
Qed.

Lemma pymax_ge_r b t : b <> NaN -> t <> NaN -> fle t (pymax b t) = true.
Proof.
  intros Hb Ht. unfold pymax, fgt. destruct (flt b t) eqn:E.
  - now apply fle_refl.
  - now apply flt_false_fle.
Qed.

Lemma pymax_mono b1 t1 b2 t2 :
  fle b1 b2 = true -> fle t1 t2 = true ->
  fle (pymax b1 t1) (pymax b2 t2) = true.
Proof.
  intros Hb Ht.
  assert (b2 <> NaN) by (intros ->; now rewrite fle_nan_r in Hb).
  assert (t2 <> NaN) by (intros ->; now rewrite fle_nan_r in Ht).
  unfold pymax at 1. destruct (fgt t1 b1).
  - eapply fle_trans; [exact Ht|]. now apply pymax_ge_r.
  - eapply fle_trans; [exact Hb|]. now apply pymax_ge_l.
Qed.

(** Rounding commutes with [max]: both round the larger value. *)
Lemma round2_pymax b t :
  t <> NaN -> round2 (pymax b t) = pymax (round2 b) (round2 t).
Proof.
  intros Ht.
  destruct (xfloat_nan_dec b) as [->|Hb].
  { now rewrite round2_nan, !pymax_nan_l, round2_nan. }
  unfold pymax, fgt. destruct (flt b t) eqn:E.
  - apply flt_fle, round2_mono in E.
    destruct (flt (round2 b) (round2 t)) eqn:E'; [reflexivity|].
    apply fle_antisym; [|assumption].
    apply flt_false_fle; try assumption;
      intros HN; apply round2_not_nan in HN; contradiction.
  - apply flt_false_fle, round2_mono in E; try assumption.
    now rewrite (fle_not_flt _ _ E).
Qed.

(** ** Powers of the burst altitude *)

Lemma float_pow_c_pow x q y : float_pow x q = Ok y -> y = c_pow x q.
Proof.
  unfold float_pow, c_pow. destruct (Qzero q); [congruence|].
  destruct x as [r| | |]; try congruence.
  destruct (Reqb r 0).
  { destruct (Qpositive q); congruence. }
  destruct (Rltb r 0 && negb (is_integer q)); [discriminate|].
  destruct (overflow (rpow r q)); congruence.
Qed.

Lemma Rpower_5_frac : 0 < Rpower 5 (Q2R (-449 # 1000)) <= 1.
Proof.
  unfold Rpower. split; [apply exp_pos|].
  rewrite <- exp_0. 
  assert (0 < ln 5) as H by (rewrite <- ln_1; apply ln_increasing; lra).
  assert (Q2R (-449 # 1000) * ln 5 <= 0) as H'.
  { unfold Q2R. simpl. nra. }
  destruct H' as [H'|H']; [left; now apply exp_increasing | right; now rewrite H'].
Qed.

Lemma float_pow_5_frac :
  float_pow (Fin 5) (-449 # 1000) = Ok (Fin (Rpower 5 (Q2R (-449 # 1000)))).
Proof.
  pose proof Rpower_5_frac. pose proof DBL_MAX_bounds.
  unfold float_pow, c_pow. simpl Qzero. cbv iota.
  rewrite (proj2 (Reqb_neq 5 0)) by lra.
  rewrite (proj2 (Rltb_ge 5 0)) by lra. simpl andb. cbv iota.
  change (rpow 5 (-449 # 1000)) with (Rpower 5 (Q2R (-449 # 1000))).
  rewrite overflow_fin by lra. reflexivity.
Qed.

Lemma float_pow_5_2 : float_pow (Fin 5) 2 = Ok (Fin 25).
Proof.
  pose proof DBL_MAX_bounds.
  unfold float_pow, c_pow. simpl Qzero. cbv iota.
  rewrite (proj2 (Reqb_neq 5 0)) by lra.
  rewrite (proj2 (Rltb_ge 5 0)) by lra. simpl andb. cbv iota.
  replace (rpow 5 2) with 25 by (unfold rpow; simpl; lra).
  rewrite overflow_fin by lra. reflexivity.
Qed.

Lemma float_pow_0_2 : float_pow (Fin 0) 2 = Ok (Fin 0).
Proof.
  unfold float_pow. simpl Qzero. cbv iota.
  now rewrite (proj2 (Reqb_eq 0 0)).
Qed.

Lemma altitude_cases d :
  (flt d (Fin 0.05) = true /\ altitude_h_km d = Fin 5) \/
  (flt d (Fin 0.05) = false /\ altitude_h_km d = Fin 0).
Proof. unfold altitude_h_km. destruct (flt d (Fin 0.05)); auto. Qed.

Lemma fgt_5_0 : fgt (Fin 5) (Fin 0) = true.
Proof. apply flt_fin. lra. Qed.

Lemma fgt_0_0 : fgt (Fin 0) (Fin 0) = false.
Proof. apply flt_fin_false. lra. Qed.

(** On the two altitudes the program selects, no power raises and the
    code computes the formulas of the specification. *)
Lemma raio_blast_km_altitude E d :
  raio_blast_km E (altitude_h_km d) =
  Ok (if flt d (Fin 0.05) then airburst_formula E (Fin 5) else ground_formula E).
Proof.
  unfold raio_blast_km, altitude_h_km. destruct (flt d (Fin 0.05)).
  - rewrite fgt_5_0. unfold raio_blast_airburst, airburst_formula.
    rewrite <- (float_pow_c_pow _ _ _ float_pow_5_frac).
    rewrite <- (float_pow_c_pow _ _ _ float_pow_5_2).
    rewrite float_pow_5_frac, float_pow_5_2. reflexivity.
  - rewrite fgt_0_0. reflexivity.
Qed.

Lemma raio_thermal_km_altitude eta E d :
  raio_thermal_km eta E (altitude_h_km d) =
  Ok (thermal_formula eta E (altitude_h_km d)).
Proof.
  unfold raio_thermal_km, thermal_formula, h_sq, altitude_h_km, r_sq, Zi.
  destruct (flt d (Fin 0.05)).
  - rewrite <- (float_pow_c_pow _ _ _ float_pow_5_2), float_pow_5_2. reflexivity.
  - rewrite <- (float_pow_c_pow _ _ _ float_pow_0_2), float_pow_0_2. reflexivity.
Qed.

Lemma calculate_damage_body_eq d v a rho eta :
  calculate_damage_body d v a rho eta =
  try energia_j <- energia_cinetica_j d v a rho in Ok (results_of d eta energia_j).
Proof.
  unfold calculate_damage_body.
  destruct (energia_cinetica_j d v a rho) as [ke|e]; [|reflexivity].
  simpl. rewrite raio_blast_km_altitude, raio_thermal_km_altitude. reflexivity.
Qed.

(** A result is returned exactly when the kinetic energy is computed
    without an exception, and it is then the dictionary above. *)
Lemma calculate_damage_Some d v a rho eta r :
  calculate_damage_from_pair_model d v a rho eta = Some r <->
  exists energia_j,
    energia_cinetica_j d v a rho = Ok energia_j /\ r = results_of d eta energia_j.
Proof.
  unfold calculate_damage_from_pair_model. rewrite calculate_damage_body_eq.
  destruct (energia_cinetica_j d v a rho) as [ke|e]; simpl; split.
  - intros [= <-]. eauto.
  - intros (ke' & [= <-] & ->). reflexivity.
  - discriminate.
  - intros (ke' & [=] & _).
Qed.

Lemma calculate_damage_None d v a rho eta :
  calculate_damage_from_pair_model d v a rho eta = None <->
  exists e, energia_cinetica_j d v a rho = Raise e.
Proof.
  unfold calculate_damage_from_pair_model. rewrite calculate_damage_body_eq.
  destruct (energia_cinetica_j d v a rho) as [ke|e]; simpl; split.
  - discriminate.
  - intros (e & [=]).
  - eauto.
  - reflexivity.
Qed.

(** ** Integer powers of built-in floats *)

Lemma rpow_3 r : rpow r 3 = r * r * r.
Proof. unfold rpow. simpl. ring. Qed.

Lemma rpow_2 r : rpow r 2 = r * r.
Proof. unfold rpow. simpl. ring. Qed.

Lemma float_pow_3_fin r :
  - DBL_MAX <= r * r * r <= DBL_MAX ->
  float_pow (Fin r) 3 = Ok (Fin (r * r * r)).
Proof.
  intros H. unfold float_pow, c_pow. simpl Qzero. cbv iota.
  destruct (Reqb r 0) eqn:E.
  - apply Reqb_eq in E. subst r. simpl. do 2 f_equal. ring.
  - rewrite Bool.andb_false_r, rpow_3, overflow_fin by assumption. reflexivity.
Qed.

Lemma float_pow_2_fin r :
  r * r <= DBL_MAX -> float_pow (Fin r) 2 = Ok (Fin (r * r)).
Proof.
  intros H. pose proof DBL_MAX_pos. unfold float_pow, c_pow. simpl Qzero. cbv iota.
  destruct (Reqb r 0) eqn:E.
  - apply Reqb_eq in E. subst r. simpl. do 2 f_equal. ring.
  - rewrite Bool.andb_false_r, rpow_2, overflow_fin by nra. reflexivity.
Qed.

Lemma float_pow_3_overflow r :
  DBL_MAX < r * r * r \/ r * r * r < - DBL_MAX ->
  float_pow (Fin r) 3 = Raise OverflowError.
Proof.
  intros H. pose proof DBL_MAX_pos. unfold float_pow, c_pow. simpl Qzero. cbv iota.
  rewrite (proj2 (Reqb_neq r 0)) by (intros ->; lra).
  rewrite Bool.andb_false_r, rpow_3.
  destruct H; [rewrite overflow_pinf | rewrite overflow_ninf]; auto.
Qed.

Lemma float_pow_2_overflow r :
  DBL_MAX < r * r -> float_pow (Fin r) 2 = Raise OverflowError.
Proof.
  intros H. pose proof DBL_MAX_pos. unfold float_pow, c_pow. simpl Qzero. cbv iota.
  rewrite (proj2 (Reqb_neq r 0)) by (intros ->; lra).
  rewrite Bool.andb_false_r, rpow_2, overflow_pinf; auto.
Qed.

(** A power with exponent 3 or 2 raises nothing but OverflowError, and
    only on a finite base. *)
Lemma float_pow_3_raise x e :
  float_pow x 3 = Raise e ->
  e = OverflowError /\
  exists r, x = Fin r /\ (DBL_MAX < r * r * r \/ r * r * r < - DBL_MAX).
Proof.
  destruct x as [r| | |]; try discriminate.
  destruct (overflow_cases (r * r * r)) as [[_ H]|H].
  - now rewrite float_pow_3_fin.
  - assert (DBL_MAX < r * r * r \/ r * r * r < - DBL_MAX) as H' by tauto.
    rewrite (float_pow_3_overflow r H'). intros [= <-]. eauto.
Qed.

Lemma float_pow_2_raise x e :
  float_pow x 2 = Raise e ->
  e = OverflowError /\ exists r, x = Fin r /\ DBL_MAX < r * r.
Proof.
  destruct x as [r| | |]; try discriminate.
  destruct (Rlt_dec DBL_MAX (r * r)) as [H|H].
  - rewrite (float_pow_2_overflow r H). intros [= <-]. eauto.
  - rewrite float_pow_2_fin by lra. discriminate.
Qed.

(** The complex case of [float_pow] is never met by an integer
    exponent. *)
Lemma float_pow_integer_real x q :
  is_integer q = true -> float_pow x q <> Raise TypeError.
Proof.
  intros Hq. unfold float_pow. destruct (Qzero q); [discriminate|].
  destruct x as [r| | |]; try discriminate.
  destruct (Reqb r 0).
  { destruct (Qpositive q); discriminate. }
  rewrite Hq, Bool.andb_false_r.
  destruct (c_pow (Fin r) q); discriminate.
Qed.

(** ** The kinetic energy *)

Lemma energia_cinetica_j_formula d v a rho ke :
  energia_cinetica_j d v a rho = Ok ke ->
  ke = kinetic_energy_formula d v a rho.
Proof.
  unfold energia_cinetica_j, massa_kg, volume_m3, kinetic_energy_formula.
  fold (raio_m d) (velocidade_m_s v).
  destruct (float_pow (raio_m d) 3) as [c|] eqn:Hc; [|discriminate].
  destruct (float_pow (velocidade_m_s v) 2) as [w|] eqn:Hw; [|discriminate].
  simpl. intros [= <-].
  now rewrite (float_pow_c_pow _ _ _ Hc), (float_pow_c_pow _ _ _ Hw).
Qed.

Lemma energia_cinetica_j_raise d v a rho e :
  energia_cinetica_j d v a rho = Raise e <->
  float_pow (raio_m d) 3 = Raise e \/
  (exists c, float_pow (raio_m d) 3 = Ok c) /\
  float_pow (velocidade_m_s v) 2 = Raise e.
Proof.
  unfold energia_cinetica_j, massa_kg, volume_m3.
  destruct (float_pow (raio_m d) 3) as [c|e1]; simpl.
  - destruct (float_pow (velocidade_m_s v) 2) as [w|e2]; simpl.
    + split; [discriminate|]. intros [[=]|[_ [=]]].
    + split; [intros [= ->]; eauto|]. now intros [[=]|[_ [= ->]]].
  - split; [intros [= ->]; auto|]. intros [[= ->]|[[c [=]] _]]. reflexivity.
Qed.

Lemma np_sin_radians_0 : np_sin (np_radians (Fin 0)) = Fin 0.
Proof.
  pose proof DBL_MAX_pos. unfold np_radians.
  rewrite fmul_fin by lra. simpl. now rewrite Rmult_0_l, sin_0.
Qed.

Lemma energia_E_megatons_0 : energia_E_megatons (Fin 0) = Fin 0.
Proof.
  pose proof DBL_MAX_pos. unfold energia_E_megatons.
  rewrite fdiv_fin by lra. f_equal. lra.
Qed.

(** ** Zero energy *)

Lemma fmul_fin_0_r a : fmul (Fin a) (Fin 0) = Fin 0.
Proof.
  pose proof DBL_MAX_pos. rewrite fmul_fin by lra. f_equal. ring.
Qed.

Lemma two_pi : fmul (Fin 2) np_pi = Fin (2 * PI).
Proof.
  pose proof DBL_MAX_bounds. pose proof PI_RGT_0. pose proof PI_4.
  unfold np_pi. apply fmul_fin. lra.
Qed.

Lemma c_pow_0_pos q : Qpositive q = true -> c_pow (Fin 0) q = Fin 0.
Proof.
  intros H. unfold c_pow.
  assert (Qzero q = false) as ->.
  { unfold Qzero, Qpositive in *. lia. }
  now rewrite (proj2 (Reqb_eq 0 0)), H.
Qed.

Lemma c_pow_0_neg_third : c_pow (Fin 0) (-1 # 3) = PInf.
Proof. unfold c_pow. simpl. now rewrite (proj2 (Reqb_eq 0 0)). Qed.

Lemma ground_formula_0 : ground_formula (Fin 0) = Fin 0.
Proof.
  unfold ground_formula. rewrite c_pow_0_pos by reflexivity. apply fmul_fin_0_r.
Qed.

(** With zero energy the airburst formula multiplies a positive
    finite factor by 0^(-1/3) = +inf: the blast radius is +inf. *)
Lemma airburst_formula_0 : airburst_formula (Fin 0) (Fin 5) = PInf.
Proof.
  pose proof Rpower_5_frac as Hp. pose proof DBL_MAX_bounds.
  unfold airburst_formula.
  rewrite <- (float_pow_c_pow _ _ _ float_pow_5_frac).
  rewrite <- (float_pow_c_pow _ _ _ float_pow_5_2).
  rewrite c_pow_0_neg_third, c_pow_0_pos, fmul_fin_0_r by reflexivity.
  set (p := Rpower 5 (Q2R (-449 # 1000))) in *.
  rewrite (fmul_fin 2.09 p) by nra.
  rewrite (fmul_fin (2.09 * p) 25) by nra.
  simpl. rewrite inf_signed_pos by nra. reflexivity.
Qed.

Lemma Zi_0 : Zi (Fin 0) = Fin 0.
Proof.
  unfold Zi. rewrite c_pow_0_pos by reflexivity. apply fmul_fin_0_r.
Qed.

(** With zero energy [r_sq] is the invalid operation 0 / 0, whatever
    the efficiency. *)
Lemma r_sq_0 eta : r_sq eta (Fin 0) = NaN.
Proof.
  unfold r_sq. rewrite Zi_0, two_pi, fmul_fin_0_r.
  destruct eta as [e| | |]; try reflexivity.
  - rewrite fmul_fin_0_r. simpl.
    now rewrite (proj2 (Reqb_eq 0 0)), inf_signed_zero.
  - simpl. now rewrite inf_signed_zero.
  - simpl. rewrite inf_signed_zero; [reflexivity | lra].
Qed.

Lemma thermal_formula_r_sq eta E h :
  thermal_formula eta E h =
  if fgt (r_sq eta E) (c_pow h 2)
  then np_sqrt (fsub (r_sq eta E) (c_pow h 2)) else Fin 0.
Proof. reflexivity. Qed.

Lemma thermal_formula_0 eta h : thermal_formula eta (Fin 0) h = Fin 0.
Proof.
  rewrite thermal_formula_r_sq, r_sq_0. unfold fgt.
  now destruct (c_pow h 2).
Qed.

(** ** The thermal radius is never negative and never NaN *)

Lemma clamp_sqrt_nonneg r h :
  fle (Fin 0) (if fgt r h then np_sqrt (fsub r h) else Fin 0) = true.
Proof.
  unfold fgt. destruct (flt h r) eqn:E; [|apply fle_fin; lra].
  destruct r as [a| | |], h as [b| | |]; simpl in E; try discriminate;
    try reflexivity.
  apply Rltb_lt in E. unfold fsub, fneg, fadd.
  destruct (overflow_cases (a + - b)) as [[-> ?]|[[-> ?]|[-> ?]]].
  - simpl. rewrite (proj2 (Rltb_ge (a + - b) 0)) by lra.
    apply fle_fin, sqrt_pos.
  - reflexivity.
  - pose proof DBL_MAX_pos. lra.
Qed.

Lemma thermal_formula_nonneg eta E h :
  fle (Fin 0) (thermal_formula eta E h) = true.
Proof. rewrite thermal_formula_r_sq. apply clamp_sqrt_nonneg. Qed.

Lemma thermal_formula_not_nan eta E h : thermal_formula eta E h <> NaN.
Proof.
  intros H. pose proof (thermal_formula_nonneg eta E h) as H'.
  now rewrite H in H'.
Qed.

(** ** Sample evaluations *)

Ltac bound :=
  pose proof DBL_MAX_bounds; pose proof PI_RGT_0; pose proof PI_4;
  pose proof PI2_1; lra.

(** With a zero angle and a finite product 0.5 * mass * v^2 the
    kinetic energy is exactly zero. *)
Lemma energia_cinetica_j_angle_0 d v rho m v2 p :
  massa_kg d rho = Ok m ->
  float_pow (velocidade_m_s v) 2 = Ok v2 ->
  fmul (fmul (Fin 0.5) m) v2 = Fin p ->
  energia_cinetica_j d v (Fin 0) rho = Ok (Fin 0).
Proof.
  intros Hm Hv Hp. unfold energia_cinetica_j.
  rewrite Hm, Hv. cbn [bind]. rewrite Hp, np_sin_radians_0.
  rewrite fmul_fin_0_r. reflexivity.
Qed.

Lemma massa_kg_fin d rho :
  let r := d * 1000 / 2 in
  - DBL_MAX <= d * 1000 <= DBL_MAX ->
  - DBL_MAX <= r * r * r <= DBL_MAX ->
  - DBL_MAX <= 4 / 3 * PI * (r * r * r) <= DBL_MAX ->
  - DBL_MAX <= rho * (4 / 3 * PI * (r * r * r)) <= DBL_MAX ->
  massa_kg (Fin d) (Fin rho) = Ok (Fin (rho * (4 / 3 * PI * (r * r * r)))).
Proof.
  intros r H1 H2 H3 H4.
  unfold massa_kg, volume_m3, raio_m, np_pi.
  rewrite (fmul_fin d 1000) by assumption.
  rewrite fdiv_fin by bound. fold r.
  rewrite float_pow_3_fin by assumption. cbn [bind].
  rewrite (fmul_fin (4 / 3) PI) by bound.
  rewrite (fmul_fin (4 / 3 * PI)) by assumption. cbn [bind].
  rewrite fmul_fin by assumption. reflexivity.
Qed.

Lemma velocidade_2_fin v :
  - DBL_MAX <= v * 1000 <= DBL_MAX ->
  v * 1000 * (v * 1000) <= DBL_MAX ->
  float_pow (velocidade_m_s (Fin v)) 2 = Ok (Fin (v * 1000 * (v * 1000))).
Proof.
  intros H1 H2. unfold velocidade_m_s.
  rewrite fmul_fin by assumption. now apply float_pow_2_fin.
Qed.

(** The sample of the specification, at a zero angle. *)
Lemma energia_sample_ground :
  energia_cinetica_j (Fin 0.14) (Fin 19) (Fin 0) (Fin 3000) = Ok (Fin 0).
Proof.
  eapply energia_cinetica_j_angle_0.
  - apply massa_kg_fin; bound.
  - apply velocidade_2_fin; bound.
  - rewrite fmul_fin by bound. apply fmul_fin. bound.
Qed.

(** A 30 m body (airburst regime) at a zero angle. *)
Lemma energia_sample_airburst :
  energia_cinetica_j (Fin 0.03) (Fin 20) (Fin 0) (Fin 3000) = Ok (Fin 0).
Proof.
  eapply energia_cinetica_j_angle_0.
  - apply massa_kg_fin; bound.
  - apply velocidade_2_fin; bound.
  - rewrite fmul_fin by bound. apply fmul_fin. bound.
Qed.

(** The dictionary at zero energy. *)
Lemma results_of_0_ground d eta :
  flt d (Fin 0.05) = false ->
  results_of d eta (Fin 0) =
  {| energia_megatons := Fin 0;
     altitude_explosao_km := Fin 0;
     raio_dano_explosao_km := Fin 0;
     raio_dano_termico_km := Fin 0;
     raio_dano_final_km := Fin 0;
     kinetic_energy_joules := Fin 0 |}.
Proof.
  intros Hd. unfold results_of, altitude_h_km. rewrite Hd.
  rewrite energia_E_megatons_0, ground_formula_0, thermal_formula_0.
  unfold pymax. rewrite fgt_0_0, round2_0. reflexivity.
Qed.

Lemma results_of_0_airburst d eta :
  flt d (Fin 0.05) = true ->
  results_of d eta (Fin 0) =
  {| energia_megatons := Fin 0;
     altitude_explosao_km := Fin 5;
     raio_dano_explosao_km := PInf;
     raio_dano_termico_km := Fin 0;
     raio_dano_final_km := PInf;
     kinetic_energy_joules := Fin 0 |}.
Proof.
  intros Hd. unfold results_of, altitude_h_km. rewrite Hd.
  rewrite energia_E_megatons_0, airburst_formula_0, thermal_formula_0.
  unfold pymax, fgt. simpl flt. cbv iota.
  rewrite round2_0, round2_5, round2_pinf. reflexivity.
Qed.

(** ** Overflowing mass *)

Lemma fmul_inf_0 x : x = PInf \/ x = NInf \/ x = NaN -> fmul x (Fin 0) = NaN.
Proof.
  intros [-> | [-> | ->]]; simpl; try reflexivity;
    apply inf_signed_zero; lra.
Qed.

(** An infinite mass at a zero angle: inf * 0 is NaN. *)
Lemma energia_cinetica_j_mass_overflow d v rho v2 :
  massa_kg d rho = Ok PInf ->
  float_pow (velocidade_m_s v) 2 = Ok v2 ->
  energia_cinetica_j d v (Fin 0) rho = Ok NaN.
Proof.
  intros Hm Hv. unfold energia_cinetica_j.
  rewrite Hm, Hv. cbn [bind]. rewrite np_sin_radians_0.
  f_equal. apply fmul_inf_0.
  replace (fmul (Fin 0.5) PInf) with PInf
    by (simpl; now rewrite inf_signed_pos by lra).
  destruct v2 as [w| | |]; simpl; auto.
  unfold inf_signed. destruct (Rltb 0 w), (Rltb w 0); auto.
Qed.

(** A density of 1e308 kg/m3: the mass overflows. *)
Lemma massa_sample_huge_density : massa_kg (Fin 1) (Fin 1e308) = Ok PInf.
Proof.
  unfold massa_kg, volume_m3, raio_m, np_pi.
  rewrite (fmul_fin 1 1000) by bound.
  rewrite fdiv_fin by bound.
  rewrite float_pow_3_fin by bound. cbn [bind].
  rewrite (fmul_fin (4 / 3) PI) by bound.
  rewrite (fmul_fin (4 / 3 * PI)) by bound.
  simpl. rewrite overflow_pinf; [reflexivity | bound].
Qed.

(** A diameter of 1e100 km: the cube of the radius is still finite,
    the volume overflows. *)
Lemma massa_sample_huge_diameter : massa_kg (Fin 1e100) (Fin 3000) = Ok PInf.
Proof.
  unfold massa_kg, volume_m3, raio_m, np_pi.
  rewrite (fmul_fin 1e100 1000) by bound.
  rewrite fdiv_fin by bound.
  rewrite float_pow_3_fin by (unfold DBL_MAX; lra). cbn [bind].
  rewrite (fmul_fin (4 / 3) PI) by bound.
  simpl fmul at 2. rewrite overflow_pinf by bound.
  simpl. now rewrite inf_signed_pos by lra.
Qed.

Lemma results_of_nan_ground d eta :
  flt d (Fin 0.05) = false ->
  results_of d eta NaN =
  {| energia_megatons := NaN;
     altitude_explosao_km := Fin 0;
     raio_dano_explosao_km := NaN;
     raio_dano_termico_km := Fin 0;
     raio_dano_final_km := NaN;
     kinetic_energy_joules := NaN |}.
Proof.
  intros Hd. unfold results_of, altitude_h_km. rewrite Hd.
  assert (thermal_formula eta (energia_E_megatons NaN) (Fin 0) = Fin 0) as ->.
  { rewrite thermal_formula_r_sq. unfold r_sq, fgt. simpl energia_E_megatons.
    replace (fmul eta NaN) with NaN by now destruct eta.
    simpl fdiv. now destruct (c_pow (Fin 0) 2). }
  simpl. rewrite round2_0. reflexivity.
Qed.

Lemma energia_E_megatons_0_inv ke :
  energia_E_megatons ke = Fin 0 -> ke = Fin 0.
Proof.
  unfold energia_E_megatons. destruct ke as [k| | |]; simpl;
    rewrite ?(proj2 (Rltb_ge 4.184e15 0)) by lra; try discriminate.
  rewrite (proj2 (Reqb_neq 4.184e15 0)) by lra.
  destruct (overflow_cases (k / 4.184e15)) as [[-> _]|[[-> _]|[-> _]]];
    try discriminate.
  intros [= H]. f_equal. lra.
Qed.

(** A diameter of 1e200 km: the cube of the radius overflows and
    [raio_m ** 3] raises OverflowError. *)
Lemma raio_m_cube_sample_overflow :
  float_pow (raio_m (Fin 1e200)) 3 = Raise OverflowError.
Proof.
  unfold raio_m. rewrite fmul_fin by bound. rewrite fdiv_fin by bound.
  apply float_pow_3_overflow. left. bound.
Qed.

(** * The classifier adapter *)

(** C4 (amended): [predict_pha_risk] returns [False] and raises
    nothing when the classifier handle is absent ([None], which is
    what a load that failed with exceptions leaves in the module
    variable) and when the classifier's prediction raises an
    exception that derives from [Exception], whatever the features;
    an empty prediction, on which [prediction[0]] raises, gives
    [False] too.  No exception that derives from [Exception] reaches
    the caller; one that does not (KeyboardInterrupt, SystemExit) is
    not caught and reaches the caller exactly when the prediction
    raises it. *)
Theorem predict_pha_risk_degrades_to_false :
  forall (features_dict : gmap string xfloat),
    predict_pha_risk None features_dict = Returns false /\
    (forall e1 e2, PHA_CLASSIFIER_MODEL (Fails e1) (Fails e2) = Returns None) /\
    (forall m e,
        predict m (input_df features_dict) = Fails e ->
        predict_pha_risk (Some m) features_dict = Returns false) /\
    (forall m,
        predict m (input_df features_dict) = Returns [] ->
        predict_pha_risk (Some m) features_dict = Returns false) /\
    (forall model e, predict_pha_risk model features_dict <> Fails e) /\
    (forall m b,
        predict_pha_risk (Some m) features_dict = Aborts b <->
        predict m (input_df features_dict) = Aborts b).
Proof.
  intros features_dict. repeat split.
  - intros m e H. unfold predict_pha_risk. now rewrite H.
  - intros m H. unfold predict_pha_risk. now rewrite H.
  - intros [m|] e; [|discriminate]. unfold predict_pha_risk.
    destruct (predict m (input_df features_dict)) as [[|first rest]|e'|b];
      discriminate.
  - unfold predict_pha_risk.
    destruct (predict m (input_df features_dict)) as [[|first rest]|e'|b'];
      try discriminate. now intros [= ->].
  - intros H. unfold predict_pha_risk. now rewrite H.
Qed.

Lemma predict_pha_risk_degrades_witness :
  predict_pha_risk (Some failing_classifier) ∅ = Returns false.
Proof.
  destruct (predict_pha_risk_degrades_to_false ∅) as (_ & _ & H & _).
  apply (H failing_classifier ValueError). reflexivity.
Defined.

(** C4 as stated fails: a prediction interrupted from the keyboard
    raises KeyboardInterrupt, which [except Exception] does not
    catch: the call does not return [False], the exception reaches
    the caller. *)
Lemma predict_pha_risk_interrupt_counterexample :
  predict interrupted_classifier (input_df ∅) = Aborts KeyboardInterrupt /\
  predict_pha_risk (Some interrupted_classifier) ∅ = Aborts KeyboardInterrupt /\
  predict_pha_risk (Some interrupted_classifier) ∅ <> Returns false.
Proof. repeat split. discriminate. Qed.

(** The adapter is not constantly false: a classifier that flags the
    row is reported as hazardous. *)
Example predict_pha_risk_flagged :
  predict_pha_risk (Some flagging_classifier) ∅ = Returns true.
Proof. reflexivity. Qed.

(** C8: the frame handed to the classifier has one row of exactly
    five entries, the values of the keys absolute_magnitude_h,
    diameter_km_avg, velocity_km_s, miss_distance_km and
    kinetic_energy_joules of the dictionary, in this order (NaN for a
    missing key), under columns named in the same order; the
    prediction of the classifier on this frame is all that
    [predict_pha_risk] uses. *)
Theorem feature_vector_fixed_order :
  forall (features_dict : gmap string xfloat) (m : Classifier),
    let value k := default NaN (features_dict !! k) in
    columns (input_df features_dict) =
      ["absolute_magnitude_h"; "diameter_km_avg"; "velocity_km_s";
       "miss_distance_km"; "kinetic_energy_joules"]%string /\
    rows (input_df features_dict) =
      [[value "absolute_magnitude_h"%string; value "diameter_km_avg"%string;
        value "velocity_km_s"%string; value "miss_distance_km"%string;
        value "kinetic_energy_joules"%string]] /\
    List.map (@length xfloat) (rows (input_df features_dict)) = [5%nat] /\
    predict_pha_risk (Some m) features_dict =
      match predict m (input_df features_dict) with
      | Returns (first :: _) => Returns (py_bool first)
      | Aborts b => Aborts b
      | _ => Returns false
      end.
Proof.
  intros features_dict m value. repeat split.
  unfold predict_pha_risk.
    destruct (predict m (input_df features_dict)) as [[|first rest]|e|b];
      reflexivity.
Qed.

(** * The damage model *)

(** C6: on every input for which a result is returned the diameter
    threshold selects the regime: below 0.05 km the altitude is 5.0
    exactly and the blast radius is the airburst formula at h = 5,
    otherwise (NaN diameter included) the altitude is 0.0 and the
    blast radius is 5.08 * E^(1/3); the dictionary holds the blast
    radius rounded to two decimals. *)
Theorem regime_selected_by_diameter :
  forall d v a rho eta r,
    calculate_damage_from_pair_model d v a rho eta = Some r ->
    exists energia_j,
      energia_cinetica_j d v a rho = Ok energia_j /\
      let E := energia_E_megatons energia_j in
      if flt d (Fin 0.05)
      then altitude_h_km d = Fin 5 /\
           altitude_explosao_km r = Fin 5 /\
           raio_blast_km E (Fin 5) = Ok (airburst_formula E (Fin 5)) /\
           raio_dano_explosao_km r = round2 (airburst_formula E (Fin 5))
      else altitude_h_km d = Fin 0 /\
           altitude_explosao_km r = Fin 0 /\
           raio_blast_km E (Fin 0) = Ok (ground_formula E) /\
           raio_dano_explosao_km r = round2 (ground_formula E).
Proof.
  intros d v a rho eta r H.
  apply calculate_damage_Some in H as (ke & Hke & ->).
  exists ke. split; [assumption|]. cbn zeta.
  pose proof (raio_blast_km_altitude (energia_E_megatons ke) d) as Hb.
  unfold results_of, altitude_h_km in *. cbn [altitude_explosao_km raio_dano_explosao_km].
  destruct (flt d (Fin 0.05)).
  - rewrite round2_5. auto.
  - rewrite round2_0. auto.
Qed.

Lemma regime_selected_by_diameter_witness :
  exists r,
    calculate_damage_from_pair_model (Fin 0.14) (Fin 19) (Fin 0) (Fin 3000) (Fin 0.3)
      = Some r /\
    altitude_explosao_km r = Fin 0 /\
    raio_dano_explosao_km r = round2 (ground_formula (energia_E_megatons (Fin 0))).
Proof.
  assert (calculate_damage_from_pair_model (Fin 0.14) (Fin 19) (Fin 0) (Fin 3000)
            (Fin 0.3) = Some (results_of (Fin 0.14) (Fin 0.3) (Fin 0))) as H.
  { apply calculate_damage_Some. exists (Fin 0). split; [|reflexivity].
    apply energia_sample_ground. }
  exists (results_of (Fin 0.14) (Fin 0.3) (Fin 0)). split; [exact H|].
  destruct (regime_selected_by_diameter _ _ _ _ _ _ H) as (ke & Hke & Hr).
  rewrite energia_sample_ground in Hke. injection Hke as <-.
  cbn zeta in Hr.
  rewrite (proj2 (flt_fin_false 0.14 0.05)) in Hr by lra.
  tauto.
Defined.

(** C9: the altitude is 5.0 or 0.0; the airburst branch, the only
    place where h^(-0.449) and E^(-1/3) are evaluated, is taken only
    for h > 0, hence only with h = 5.0; with h = 0 (and with any h
    that is not above 0) the blast radius is 5.08 * E^(1/3). *)
Theorem airburst_formula_only_at_5 :
  forall d E,
    (altitude_h_km d = Fin 5 \/ altitude_h_km d = Fin 0) /\
    raio_blast_km E (altitude_h_km d) =
      (if fgt (altitude_h_km d) (Fin 0)
       then raio_blast_airburst E (Fin 5)
       else Ok (ground_formula E)) /\
    raio_blast_km E (Fin 0) = Ok (ground_formula E) /\
    (fgt (altitude_h_km d) (Fin 0) = true <-> altitude_h_km d = Fin 5) /\
    (fgt (altitude_h_km d) (Fin 0) = true <-> flt d (Fin 0.05) = true).
Proof.
  intros d E. unfold raio_blast_km. rewrite fgt_0_0.
  destruct (altitude_cases d) as [[Hd ->]|[Hd ->]];
    rewrite ?fgt_5_0, ?fgt_0_0, Hd; repeat split; auto; try discriminate.
  intros [= H]. lra.
Qed.

(** C2: on every input for which a result is returned the thermal
    radius is the clamped formula of the specification: the square
    root of r_sq - h_sq when r_sq > h_sq and exactly 0.0 when
    r_sq <= h_sq; the returned value is never negative. *)
Theorem thermal_radius_never_negative :
  forall d v a rho eta r,
    calculate_damage_from_pair_model d v a rho eta = Some r ->
    exists energia_j,
      energia_cinetica_j d v a rho = Ok energia_j /\
      let E := energia_E_megatons energia_j in
      let h := altitude_h_km d in
      let Zi := fmul (Fin 0.42) (c_pow E (1 # 6)) in
      let r_sq := fdiv (fmul eta E) (fmul (fmul (Fin 2) np_pi) Zi) in
      let h_sq := c_pow h 2 in
      raio_thermal_km eta E h =
        Ok (if fgt r_sq h_sq then np_sqrt (fsub r_sq h_sq) else Fin 0) /\
      (fgt r_sq h_sq = true ->
       raio_dano_termico_km r = round2 (np_sqrt (fsub r_sq h_sq))) /\
      (fle r_sq h_sq = true ->
       raio_thermal_km eta E h = Ok (Fin 0) /\ raio_dano_termico_km r = Fin 0) /\
      fle (Fin 0) (raio_dano_termico_km r) = true.
Proof.
  intros d v a rho eta r H.
  apply calculate_damage_Some in H as (ke & Hke & ->).
  exists ke. split; [assumption|]. cbn zeta.
  rewrite raio_thermal_km_altitude.
  unfold results_of. cbn [raio_dano_termico_km].
  rewrite thermal_formula_r_sq. unfold r_sq, Zi.
  repeat split.
  - intros ->. reflexivity.
  - apply fle_not_flt in H. unfold fgt. now rewrite H.
  - apply fle_not_flt in H. unfold fgt. rewrite H. apply round2_0.
  - rewrite <- round2_0 at 1. apply round2_mono, clamp_sqrt_nonneg.
Qed.

Lemma thermal_radius_never_negative_witness :
  exists r,
    calculate_damage_from_pair_model (Fin 0.14) (Fin 19) (Fin 0) (Fin 3000) (Fin 0.3)
      = Some r /\
    fle (Fin 0) (raio_dano_termico_km r) = true.
Proof.
  assert (calculate_damage_from_pair_model (Fin 0.14) (Fin 19) (Fin 0) (Fin 3000)
            (Fin 0.3) = Some (results_of (Fin 0.14) (Fin 0.3) (Fin 0))) as H.
  { apply calculate_damage_Some. exists (Fin 0). split; [|reflexivity].
    apply energia_sample_ground. }
  exists (results_of (Fin 0.14) (Fin 0.3) (Fin 0)). split; [exact H|].
  destruct (thermal_radius_never_negative _ _ _ _ _ _ H) as (ke & _ & Hr).
  cbn zeta in Hr. tauto.
Defined.

(** C1 (amended): on every input for which a result is returned the
    final radius is the rounded maximum of the blast and the thermal
    radius, which is also the maximum of the two rounded radii of the
    dictionary; and whenever the blast radius is not NaN the final
    radius is at least the blast radius and at least the thermal
    radius. *)
Theorem final_radius_is_max :
  forall d v a rho eta r,
    calculate_damage_from_pair_model d v a rho eta = Some r ->
    (exists energia_j raio_blast raio_thermal,
        energia_cinetica_j d v a rho = Ok energia_j /\
        raio_blast_km (energia_E_megatons energia_j) (altitude_h_km d)
          = Ok raio_blast /\
        raio_thermal_km eta (energia_E_megatons energia_j) (altitude_h_km d)
          = Ok raio_thermal /\
        raio_dano_explosao_km r = round2 raio_blast /\
        raio_dano_termico_km r = round2 raio_thermal /\
        raio_dano_final_km r = round2 (pymax raio_blast raio_thermal)) /\
    raio_dano_final_km r =
      pymax (raio_dano_explosao_km r) (raio_dano_termico_km r) /\
    (raio_dano_explosao_km r <> NaN ->
     fge (raio_dano_final_km r) (raio_dano_explosao_km r) = true /\
     fge (raio_dano_final_km r) (raio_dano_termico_km r) = true).
Proof.
  intros d v a rho eta r H.
  apply calculate_damage_Some in H as (ke & Hke & ->).
  set (E := energia_E_megatons ke).
  set (b := if flt d (Fin 0.05) then airburst_formula E (Fin 5)
            else ground_formula E).
  set (t := thermal_formula eta E (altitude_h_km d)).
  assert (t <> NaN) as Ht by apply thermal_formula_not_nan.
  change (raio_dano_final_km (results_of d eta ke)) with (round2 (pymax b t)).
  change (raio_dano_explosao_km (results_of d eta ke)) with (round2 b).
  change (raio_dano_termico_km (results_of d eta ke)) with (round2 t).
  split; [|split].
  - exists ke, b, t. repeat split; try assumption.
    + apply raio_blast_km_altitude.
    + apply raio_thermal_km_altitude.
  - now apply round2_pymax.
  - intros Hb.
    assert (b <> NaN) as Hb' by (intros Hn; apply Hb; now rewrite Hn).
    unfold fge. split; apply round2_mono.
    + now apply pymax_ge_l.
    + now apply pymax_ge_r.
Qed.

Lemma final_radius_is_max_witness :
  exists r,
    calculate_damage_from_pair_model (Fin 0.03) (Fin 20) (Fin 0) (Fin 3000) (Fin 0.3)
      = Some r /\
    fge (raio_dano_final_km r) (raio_dano_explosao_km r) = true /\
    fge (raio_dano_final_km r) (raio_dano_termico_km r) = true.
Proof.
  assert (calculate_damage_from_pair_model (Fin 0.03) (Fin 20) (Fin 0) (Fin 3000)
            (Fin 0.3) = Some (results_of (Fin 0.03) (Fin 0.3) (Fin 0))) as H.
  { apply calculate_damage_Some. exists (Fin 0). split; [|reflexivity].
    apply energia_sample_airburst. }
  exists (results_of (Fin 0.03) (Fin 0.3) (Fin 0)). split; [exact H|].
  apply (final_radius_is_max _ _ _ _ _ _ H).
  rewrite results_of_0_airburst by (apply flt_fin; lra). discriminate.
Defined.

(** C1 as stated fails: a body of 1e100 km at a zero angle has an
    infinite mass (the volume overflows), the energy is inf * 0 = NaN,
    a result is returned and its final radius NaN is not at least its
    blast radius NaN. *)
Lemma final_radius_nan_counterexample :
  calculate_damage_from_pair_model
    (Fin 1e100) (Fin 20) (Fin 0) (Fin 3000) (Fin 0.3) =
  Some {| energia_megatons := NaN;
          altitude_explosao_km := Fin 0;
          raio_dano_explosao_km := NaN;
          raio_dano_termico_km := Fin 0;
          raio_dano_final_km := NaN;
          kinetic_energy_joules := NaN |} /\
  fge NaN NaN = false /\ fge NaN (Fin 0) = false.
Proof.
  split; [|split; reflexivity].
  apply calculate_damage_Some. exists NaN. split.
  - eapply energia_cinetica_j_mass_overflow.
    + apply massa_sample_huge_diameter.
    + apply velocidade_2_fin; bound.
  - symmetry. apply results_of_nan_ground. apply flt_fin_false. lra.
Qed.

(** C5 (amended): when the airburst branch is reached with zero
    energy nothing guards E = 0: E^(-1/3) is evaluated to +inf, no
    exception is raised, and a result is returned whose blast radius
    and final radius are +inf (the thermal radius is 0.0 and the
    altitude 5.0). *)
Theorem airburst_zero_energy_unguarded :
  forall d v a rho eta energia_j,
    flt d (Fin 0.05) = true ->
    energia_cinetica_j d v a rho = Ok energia_j ->
    energia_E_megatons energia_j = Fin 0 ->
    c_pow (energia_E_megatons energia_j) (-1 # 3) = PInf /\
    raio_blast_km (energia_E_megatons energia_j) (altitude_h_km d) = Ok PInf /\
    calculate_damage_from_pair_model d v a rho eta =
    Some {| energia_megatons := Fin 0;
            altitude_explosao_km := Fin 5;
            raio_dano_explosao_km := PInf;
            raio_dano_termico_km := Fin 0;
            raio_dano_final_km := PInf;
            kinetic_energy_joules := Fin 0 |}.
Proof.
  intros d v a rho eta ke Hd Hke HE.
  pose proof (energia_E_megatons_0_inv ke HE) as ->.
  rewrite HE. split; [apply c_pow_0_neg_third|]. split.
  - rewrite raio_blast_km_altitude, Hd. f_equal. apply airburst_formula_0.
  - apply calculate_damage_Some. exists (Fin 0). split; [assumption|].
    symmetry. now apply results_of_0_airburst.
Qed.

Lemma airburst_zero_energy_unguarded_witness :
  raio_blast_km (energia_E_megatons (Fin 0)) (altitude_h_km (Fin 0.04)) = Ok PInf.
Proof.
  apply (airburst_zero_energy_unguarded
           (Fin 0.04) (Fin 15) (Fin 0) (Fin 2500) (Fin 0.5) (Fin 0)).
  - apply flt_fin. lra.
  - eapply energia_cinetica_j_angle_0.
    + apply massa_kg_fin; bound.
    + apply velocidade_2_fin; bound.
    + rewrite fmul_fin by bound. apply fmul_fin. bound.
  - apply energia_E_megatons_0.
Defined.

(** C5 as stated fails: a 30 m body at a zero angle reaches the
    airburst branch with zero energy and the call returns a result
    whose blast radius is +inf. *)
Lemma airburst_zero_energy_counterexample :
  flt (Fin 0.03) (Fin 0.05) = true /\
  energia_cinetica_j (Fin 0.03) (Fin 20) (Fin 0) (Fin 3000) = Ok (Fin 0) /\
  calculate_damage_from_pair_model
    (Fin 0.03) (Fin 20) (Fin 0) (Fin 3000) (Fin 0.3) =
  Some {| energia_megatons := Fin 0;
          altitude_explosao_km := Fin 5;
          raio_dano_explosao_km := PInf;
          raio_dano_termico_km := Fin 0;
          raio_dano_final_km := PInf;
          kinetic_energy_joules := Fin 0 |}.
Proof.
  assert (flt (Fin 0.03) (Fin 0.05) = true) as Hd by (apply flt_fin; lra).
  repeat split; [assumption | apply energia_sample_airburst |].
  apply calculate_damage_Some. exists (Fin 0).
  split; [apply energia_sample_airburst|].
  symmetry. now apply results_of_0_airburst.
Qed.

(** C3 (amended): [None] is returned exactly when a step raises an
    exception, and the only steps that raise are the two powers of
    built-in floats, [raio_m ** 3] and [velocidade_m_s ** 2], on
    overflow (OverflowError).  Whenever the kinetic energy is
    computed without an exception a result is returned, NaN and
    infinite values included: numpy arithmetic produces them without
    raising. *)
Theorem none_iff_power_overflows :
  forall d v a rho eta,
    (calculate_damage_from_pair_model d v a rho eta = None <->
     float_pow (raio_m d) 3 = Raise OverflowError \/
     float_pow (velocidade_m_s v) 2 = Raise OverflowError) /\
    (calculate_damage_from_pair_model d v a rho eta = None <->
     exists e, calculate_damage_body d v a rho eta = Raise e) /\
    (forall energia_j,
        energia_cinetica_j d v a rho = Ok energia_j ->
        calculate_damage_from_pair_model d v a rho eta =
        Some (results_of d eta energia_j)).
Proof.
  intros d v a rho eta. split; [|split].
  - rewrite calculate_damage_None. split.
    + intros (e & He). apply energia_cinetica_j_raise in He as [He|[_ He]].
      * left. now destruct (float_pow_3_raise _ _ He) as [-> _].
      * right. now destruct (float_pow_2_raise _ _ He) as [-> _].
    + intros [H|H]; exists OverflowError; apply energia_cinetica_j_raise.
      * now left.
      * destruct (float_pow (raio_m d) 3) as [c|e] eqn:Hc.
        -- right. eauto.
        -- left. now destruct (float_pow_3_raise _ _ Hc) as [-> _].
  - rewrite calculate_damage_None, calculate_damage_body_eq.
    destruct (energia_cinetica_j d v a rho) as [ke|e]; simpl.
    + split; intros (e & [=]).
    + split; eauto.
  - intros ke Hke. apply calculate_damage_Some. eauto.
Qed.

Lemma none_iff_power_overflows_witness :
  calculate_damage_from_pair_model (Fin 1e200) (Fin 20) (Fin 90) (Fin 3000) (Fin 0.3)
    = None /\
  calculate_damage_from_pair_model (Fin 0.14) (Fin 19) (Fin 0) (Fin 3000) (Fin 0.3)
    = Some (results_of (Fin 0.14) (Fin 0.3) (Fin 0)).
Proof.
  split.
  - destruct (none_iff_power_overflows
                (Fin 1e200) (Fin 20) (Fin 90) (Fin 3000) (Fin 0.3))
      as (H & _ & _).
    apply H. left. apply raio_m_cube_sample_overflow.
  - destruct (none_iff_power_overflows
                (Fin 0.14) (Fin 19) (Fin 0) (Fin 3000) (Fin 0.3))
      as (_ & _ & H).
    apply H, energia_sample_ground.
Defined.

(** C3 as stated fails: on the sample of the specification at a zero
    angle the thermal step evaluates the invalid operation 0 / 0
    ([r_sq] is NaN), yet the call returns a result, not [None], and
    the result is filled with zeros. *)
Lemma nan_step_returns_zeros_counterexample :
  energia_cinetica_j (Fin 0.14) (Fin 19) (Fin 0) (Fin 3000) = Ok (Fin 0) /\
  r_sq (Fin 0.3) (energia_E_megatons (Fin 0)) = NaN /\
  calculate_damage_from_pair_model
    (Fin 0.14) (Fin 19) (Fin 0) (Fin 3000) (Fin 0.3) =
  Some {| energia_megatons := Fin 0;
          altitude_explosao_km := Fin 0;
          raio_dano_explosao_km := Fin 0;
          raio_dano_termico_km := Fin 0;
          raio_dano_final_km := Fin 0;
          kinetic_energy_joules := Fin 0 |}.
Proof.
  repeat split.
  - apply energia_sample_ground.
  - rewrite energia_E_megatons_0. apply r_sq_0.
  - apply calculate_damage_Some. exists (Fin 0).
    split; [apply energia_sample_ground|].
    symmetry. apply results_of_0_ground. apply flt_fin_false. lra.
Qed.

(** C7 (amended): on every input for which a result is returned the
    kinetic energy is 0.5 * mass * velocity^2 * sin(radians(angle))
    with mass = density * (4/3) * pi * (diameter * 1000 / 2)^3 and
    velocity in m/s = velocity * 1000, and the energy in megatons is
    the kinetic energy divided by 4.184e15 (rounded to two decimals in
    the dictionary).  With a zero angle and a finite product
    0.5 * mass * velocity^2 a result is returned, with zero kinetic
    energy and zero megatons. *)
Theorem kinetic_energy_and_zero_angle :
  forall d v a rho eta,
    (forall r,
        calculate_damage_from_pair_model d v a rho eta = Some r ->
        kinetic_energy_joules r = kinetic_energy_formula d v a rho /\
        energia_megatons r =
          round2 (fdiv (kinetic_energy_joules r) (Fin 4.184e15))) /\
    (forall m v2 p,
        a = Fin 0 ->
        massa_kg d rho = Ok m ->
        float_pow (velocidade_m_s v) 2 = Ok v2 ->
        fmul (fmul (Fin 0.5) m) v2 = Fin p ->
        exists r,
          calculate_damage_from_pair_model d v a rho eta = Some r /\
          kinetic_energy_joules r = Fin 0 /\
          energia_megatons r = Fin 0).
Proof.
  intros d v a rho eta. split.
  - intros r H. apply calculate_damage_Some in H as (ke & Hke & ->).
    split; [|reflexivity]. now apply energia_cinetica_j_formula.
  - intros m v2 p -> Hm Hv Hp.
    exists (results_of d eta (Fin 0)). split.
    + apply calculate_damage_Some. exists (Fin 0). split; [|reflexivity].
      eapply energia_cinetica_j_angle_0; eassumption.
    + unfold results_of. cbn [kinetic_energy_joules energia_megatons].
      now rewrite energia_E_megatons_0, round2_0.
Qed.

Lemma kinetic_energy_and_zero_angle_witness :
  exists r,
    calculate_damage_from_pair_model (Fin 0.14) (Fin 19) (Fin 0) (Fin 3000) (Fin 0.3)
      = Some r /\
    kinetic_energy_joules r = Fin 0 /\ energia_megatons r = Fin 0.
Proof.
  eapply (proj2 (kinetic_energy_and_zero_angle
                   (Fin 0.14) (Fin 19) (Fin 0) (Fin 3000) (Fin 0.3))).
  - reflexivity.
  - apply massa_kg_fin; bound.
  - apply velocidade_2_fin; bound.
  - rewrite fmul_fin by bound. apply fmul_fin. bound.
Defined.

(** C7 as stated fails: with a density of 1e308 kg/m3 the mass
    overflows to +inf and, at a zero angle, the kinetic energy is
    inf * 0 = NaN, not zero; the returned energy in megatons is NaN. *)
Lemma zero_angle_nan_energy_counterexample :
  calculate_damage_from_pair_model
    (Fin 1) (Fin 1) (Fin 0) (Fin 1e308) (Fin 0.3) =
  Some {| energia_megatons := NaN;
          altitude_explosao_km := Fin 0;
          raio_dano_explosao_km := NaN;
          raio_dano_termico_km := Fin 0;
          raio_dano_final_km := NaN;
          kinetic_energy_joules := NaN |}.
Proof.
  apply calculate_damage_Some. exists NaN. split.
  - eapply energia_cinetica_j_mass_overflow.
    + apply massa_sample_huge_density.
    + apply velocidade_2_fin; bound.
  - symmetry. apply results_of_nan_ground. apply flt_fin_false. lra.
Qed.

(** ** Growing the diameter *)

Lemma overflow_Fin_inv r r' :
  overflow r = Fin r' -> r' = r /\ - DBL_MAX <= r <= DBL_MAX.
Proof.
  destruct (overflow_cases r) as [[-> H]|[[-> _]|[-> _]]]; try discriminate.
  intros [= <-]. auto.
Qed.

Lemma inf_signed_not_fin r r' : inf_signed r <> Fin r'.
Proof. unfold inf_signed. destruct (Rltb 0 r), (Rltb r 0); discriminate. Qed.

Lemma shrinks_not_fin x y : (forall r, y <> Fin r) -> shrinks x y.
Proof. destruct y; simpl; auto. intros H. now destruct (H r). Qed.

Lemma shrinks_fin rx ry r :
  overflow ry = Fin r ->
  (0 <= rx <= ry \/ ry <= rx <= 0) ->
  shrinks (overflow rx) (overflow ry).
Proof.
  intros H Hb. apply overflow_Fin_inv in H as [-> H].
  rewrite (overflow_fin ry H), (overflow_fin rx) by lra.
  simpl. eauto.
Qed.

Lemma shrinks_fmul_l a x y : shrinks x y -> shrinks (fmul a x) (fmul a y).
Proof.
  intros H. destruct y as [ry| | |].
  - destruct H as (rx & -> & Hb).
    destruct a as [ra| | |]; simpl fmul;
      try (apply shrinks_not_fin; intros r;
           (apply inf_signed_not_fin || discriminate)).
    destruct (overflow (ra * ry)) as [r| | |] eqn:E;
      try (apply shrinks_not_fin; discriminate).
    rewrite <- E. eapply shrinks_fin; [exact E|].
    destruct Hb, (Rle_or_lt 0 ra); [left|right|right|left]; nra.
  - apply shrinks_not_fin. intros r.
    destruct a; simpl; (apply inf_signed_not_fin || discriminate).
  - apply shrinks_not_fin. intros r.
    destruct a; simpl; (apply inf_signed_not_fin || discriminate).
  - apply shrinks_not_fin. intros r. destruct a; discriminate.
Qed.

Lemma fmul_comm x y : fmul x y = fmul y x.
Proof.
  destruct x, y; simpl; try reflexivity. now rewrite Rmult_comm.
Qed.

Lemma shrinks_fmul_r a x y : shrinks x y -> shrinks (fmul x a) (fmul y a).
Proof. rewrite !(fmul_comm _ a). apply shrinks_fmul_l. Qed.

Lemma shrinks_fdiv_r c x y :
  c <> 0 -> shrinks x y -> shrinks (fdiv x (Fin c)) (fdiv y (Fin c)).
Proof.
  intros Hc H. destruct y as [ry| | |].
  - destruct H as (rx & -> & Hb). simpl.
    rewrite (proj2 (Reqb_neq c 0) Hc).
    destruct (overflow (ry / c)) as [r| | |] eqn:E;
      try (apply shrinks_not_fin; discriminate).
    rewrite <- E. eapply shrinks_fin; [exact E|].
    unfold Rdiv. pose proof (Rinv_neq_0_compat c Hc).
    destruct Hb, (Rle_or_lt 0 (/ c)); [left|right|right|left]; nra.
  - apply shrinks_not_fin. intros r. simpl. now destruct (Rltb c 0).
  - apply shrinks_not_fin. intros r. simpl. now destruct (Rltb c 0).
  - apply shrinks_not_fin. discriminate.
Qed.

Lemma shrinks_float_pow_3 x y cx cy :
  float_pow x 3 = Ok cx -> float_pow y 3 = Ok cy ->
  shrinks x y -> shrinks cx cy.
Proof.
  intros Hx Hy H. destruct y as [ry| | |];
    try (injection Hy as <-; apply shrinks_not_fin; discriminate).
  destruct H as (rx & -> & Hb).
  assert (- DBL_MAX <= ry * ry * ry <= DBL_MAX) as Hr.
  { destruct (overflow_cases (ry * ry * ry)) as [[_ H]|H]; [assumption|].
    rewrite float_pow_3_overflow in Hy by tauto. discriminate. }
  rewrite float_pow_3_fin in Hy by assumption. injection Hy as <-.
  assert (0 <= rx * rx * rx <= ry * ry * ry \/
          ry * ry * ry <= rx * rx * rx <= 0) as Hc.
  { destruct Hb as [Hb|Hb].
    - left. split; [apply Rmult_le_pos; nra|].
      apply Rmult_le_compat; nra.
    - right. assert (0 <= - rx <= - ry) as Hn by lra.
      assert (0 <= (- rx) * (- rx) * (- rx) <= (- ry) * (- ry) * (- ry)) as Hm.
      { split; [apply Rmult_le_pos; nra|]. apply Rmult_le_compat; nra. }
      nra. }
  rewrite float_pow_3_fin in Hx by lra. injection Hx as <-.
  simpl. eauto.
Qed.

Lemma shrinks_diameter d1 d2 :
  fle (Fin 0.05) d1 = true -> fle d1 d2 = true -> shrinks d1 d2.
Proof.
  intros H1 H2. destruct d2 as [r2| | |]; simpl; auto.
  destruct d1 as [r1| | |]; try discriminate.
  apply fle_fin in H1, H2. exists r1. split; [reflexivity|lra].
Qed.

Lemma shrinks_energia d1 d2 v a rho ke1 ke2 :
  fle (Fin 0.05) d1 = true -> fle d1 d2 = true ->
  energia_cinetica_j d1 v a rho = Ok ke1 ->
  energia_cinetica_j d2 v a rho = Ok ke2 ->
  shrinks (energia_E_megatons ke1) (energia_E_megatons ke2).
Proof.
  intros H1 H2. unfold energia_cinetica_j, massa_kg, volume_m3.
  destruct (float_pow (raio_m d1) 3) as [c1|] eqn:Hc1; [|discriminate].
  destruct (float_pow (raio_m d2) 3) as [c2|] eqn:Hc2; [|discriminate].
  cbn [bind].
  destruct (float_pow (velocidade_m_s v) 2) as [w|]; [|discriminate].
  cbn [bind]. intros E1 E2.
  replace ke1 with
    (fmul (fmul (fmul (Fin 0.5) (fmul rho (fmul (fmul (Fin (4 / 3)) np_pi) c1))) w)
          (np_sin (np_radians a))) by congruence.
  replace ke2 with
    (fmul (fmul (fmul (Fin 0.5) (fmul rho (fmul (fmul (Fin (4 / 3)) np_pi) c2))) w)
          (np_sin (np_radians a))) by congruence.
  unfold energia_E_megatons. apply shrinks_fdiv_r; [lra|].
  do 2 apply shrinks_fmul_r. do 3 apply shrinks_fmul_l.
  apply (shrinks_float_pow_3 _ _ _ _ Hc1 Hc2).
  unfold raio_m. apply shrinks_fdiv_r; [lra|]. apply shrinks_fmul_r.
  now apply shrinks_diameter.
Qed.

(** ** Fractional powers of a non-negative energy *)

Lemma Q2R_pos q : Qpositive q = true -> 0 < Q2R q.
Proof.
  unfold Qpositive, Q2R. intros H. apply Z.ltb_lt in H.
  apply Rmult_lt_0_compat; [now apply IZR_lt|].
  apply Rinv_0_lt_compat, IZR_lt. lia.
Qed.

Lemma Qpositive_not_zero q : Qpositive q = true -> Qzero q = false.
Proof. unfold Qzero, Qpositive. lia. Qed.

Lemma c_pow_fin_pos e q :
  0 < e -> Qzero q = false -> is_integer q = false ->
  c_pow (Fin e) q = overflow (Rpower e (Q2R q)).
Proof.
  intros He Hz Hi. unfold c_pow, rpow. rewrite Hz, Hi.
  rewrite (proj2 (Reqb_neq e 0)) by lra.
  now rewrite (proj2 (Rltb_ge e 0)) by lra.
Qed.

Lemma Rpower_pos x y : 0 < Rpower x y.
Proof. apply exp_pos. Qed.

Lemma overflow_pos_nonneg r : 0 <= r -> fle (Fin 0) (overflow r) = true.
Proof.
  intros H. pose proof DBL_MAX_pos.
  destruct (overflow_cases r) as [[-> _]|[[-> _]|[-> ?]]];
    [now apply fle_fin | reflexivity | lra].
Qed.

Lemma c_pow_frac_nonneg e q :
  0 <= e -> Qpositive q = true -> is_integer q = false ->
  fle (Fin 0) (c_pow (Fin e) q) = true.
Proof.
  intros He Hq Hi. destruct He as [He| <-].
  - rewrite c_pow_fin_pos; auto using Qpositive_not_zero.
    apply overflow_pos_nonneg, Rlt_le, Rpower_pos.
  - rewrite c_pow_0_pos by assumption. apply fle_fin. lra.
Qed.

Lemma c_pow_frac_mono q E1 E2 :
  Qpositive q = true -> is_integer q = false ->
  fle (Fin 0) E1 = true -> fle E1 E2 = true ->
  fle (c_pow E1 q) (c_pow E2 q) = true.
Proof.
  intros Hq Hi H1 H2.
  destruct E1 as [e1| | |]; try discriminate.
  - apply fle_fin in H1.
    destruct E2 as [e2| | |]; try discriminate.
    + apply fle_fin in H2. destruct H1 as [H1| <-].
      * rewrite !c_pow_fin_pos by (auto using Qpositive_not_zero; lra).
        apply fle_overflow, Rle_Rpower_l; [|lra].
        apply Rlt_le, Q2R_pos, Hq.
      * rewrite (c_pow_0_pos q Hq). now apply c_pow_frac_nonneg.
    + unfold c_pow at 2. rewrite (Qpositive_not_zero q Hq), Hq.
      apply fle_pinf. intros HN.
      pose proof (c_pow_frac_nonneg e1 q H1 Hq Hi) as H. now rewrite HN in H.
  - destruct E2; try discriminate.
    unfold c_pow. now rewrite (Qpositive_not_zero q Hq), Hq.
Qed.

Lemma ground_formula_mono E1 E2 :
  fle (Fin 0) E1 = true -> fle E1 E2 = true ->
  fle (ground_formula E1) (ground_formula E2) = true.
Proof.
  intros H1 H2. unfold ground_formula.
  apply fmul_pos_l_mono; [lra|]. now apply c_pow_frac_mono.
Qed.

(** The blast radius of a ground impact is NaN or +inf unless the
    energy is finite and not negative. *)
Lemma ground_formula_cases E :
  (exists e, E = Fin e /\ 0 <= e) \/
  ground_formula E = NaN \/ ground_formula E = PInf.
Proof.
  unfold ground_formula. destruct E as [e| | |].
  - destruct (Rle_or_lt 0 e) as [He|He]; [left; eauto|].
    right. left. unfold c_pow. simpl Qzero. cbv iota.
    rewrite (proj2 (Reqb_neq e 0)) by lra.
    now rewrite (proj2 (Rltb_lt e 0)) by lra.
  - right. right. simpl. now rewrite inf_signed_pos by lra.
  - right. right. simpl. now rewrite inf_signed_pos by lra.
  - right. left. reflexivity.
Qed.

Lemma shrinks_nonneg E1 E2 e2 :
  shrinks E1 E2 -> E2 = Fin e2 -> 0 <= e2 ->
  exists e1, E1 = Fin e1 /\ 0 <= e1 <= e2.
Proof.
  intros H -> He. destruct H as (e1 & -> & Hb). exists e1.
  split; [reflexivity|lra].
Qed.

Lemma blast_no_decrease E1 E2 :
  shrinks E1 E2 ->
  flt (round2 (ground_formula E2)) (round2 (ground_formula E1)) = false.
Proof.
  intros H.
  destruct (ground_formula_cases E2) as [(e2 & HE & He)|[-> | ->]].
  - destruct (shrinks_nonneg _ _ _ H HE He) as (e1 & -> & Hb). subst E2.
    apply fle_not_flt, round2_mono, ground_formula_mono; apply fle_fin; lra.
  - reflexivity.
  - rewrite round2_pinf. now destruct (round2 _).
Qed.

(** ** The thermal radius grows with the energy *)

Lemma Q2R_sixth : Q2R (1 # 6) = / 6.
Proof. unfold Q2R. simpl. lra. Qed.

Lemma Rpower_sixth_bound e :
  0 < e <= DBL_MAX -> 0 < Rpower e (Q2R (1 # 6)) <= 1e52.
Proof.
  intros [H0 H1]. pose proof DBL_MAX_bounds. split; [apply Rpower_pos|].
  rewrite Q2R_sixth.
  replace 1e52 with (Rpower (Rpower 1e52 (INR 6)) (/ 6)).
  - apply Rle_Rpower_l; [lra|]. split; [assumption|].
    rewrite Rpower_pow by lra. simpl. lra.
  - rewrite Rpower_mult.
    replace (INR 6 * / 6) with 1 by (simpl; lra).
    apply Rpower_1. lra.
Qed.

Lemma Zi_fin e :
  0 < e <= DBL_MAX -> Zi (Fin e) = Fin (0.42 * Rpower e (Q2R (1 # 6))).
Proof.
  intros He. pose proof (Rpower_sixth_bound e He). pose proof DBL_MAX_bounds.
  unfold Zi. rewrite c_pow_fin_pos by (reflexivity || lra).
  rewrite overflow_fin by lra. apply fmul_fin. lra.
Qed.

Lemma r_sq_fin_energy eta e :
  0 < e <= DBL_MAX ->
  r_sq eta (Fin e) =
  fdiv (fmul eta (Fin e)) (Fin (2 * PI * (0.42 * Rpower e (Q2R (1 # 6))))).
Proof.
  intros He. pose proof (Rpower_sixth_bound e He).
  pose proof DBL_MAX_bounds. pose proof PI_RGT_0. pose proof PI_4.
  unfold r_sq. rewrite (Zi_fin e He), two_pi. f_equal.
  apply fmul_fin. nra.
Qed.

Lemma flt_fle_trans x y z : flt x y = true -> fle y z = true -> flt x z = true.
Proof.
  destruct x, y, z; simpl; try easy.
  rewrite Bool.negb_true_iff, !Rltb_lt, Rltb_ge. lra.
Qed.

Lemma fsub_fin_mono x y h :
  fle x y = true -> fle (fsub x (Fin h)) (fsub y (Fin h)) = true.
Proof.
  destruct x as [a| | |], y as [b| | |]; simpl; try easy; intros H.
  - apply fle_overflow. rewrite Bool.negb_true_iff, Rltb_ge in H. lra.
  - apply fle_pinf, overflow_not_nan.
  - apply fle_ninf, overflow_not_nan.
Qed.

Lemma np_sqrt_mono x y :
  fle (Fin 0) x = true -> fle x y = true ->
  fle (np_sqrt x) (np_sqrt y) = true.
Proof.
  destruct x as [a| | |], y as [b| | |]; simpl; try easy.
  - rewrite !Bool.negb_true_iff, !Rltb_ge. intros Ha Hab.
    rewrite (proj2 (Rltb_ge a 0)), (proj2 (Rltb_ge b 0)) by lra.
    apply fle_fin. now apply sqrt_le_1_alt.
  - rewrite !Bool.negb_true_iff, !Rltb_ge. intros Ha _.
    now rewrite (proj2 (Rltb_ge a 0)).
Qed.

Lemma flt_fsub_pos h x :
  flt (Fin h) x = true -> fle (Fin 0) (fsub x (Fin h)) = true.
Proof.
  destruct x as [a| | |]; simpl; try easy.
  rewrite Rltb_lt. intros H. apply overflow_pos_nonneg. lra.
Qed.

(** The clamp of line 103 is monotone in [r_sq]. *)
Lemma clamp_sqrt_mono x y h :
  fle x y = true ->
  fle (if fgt x (Fin h) then np_sqrt (fsub x (Fin h)) else Fin 0)
      (if fgt y (Fin h) then np_sqrt (fsub y (Fin h)) else Fin 0) = true.
Proof.
  intros H. unfold fgt at 1. destruct (flt (Fin h) x) eqn:E.
  - unfold fgt. rewrite (flt_fle_trans _ _ _ E H).
    apply np_sqrt_mono; [now apply flt_fsub_pos | now apply fsub_fin_mono].
  - apply clamp_sqrt_nonneg.
Qed.

Lemma thermal_formula_ground eta E :
  thermal_formula eta E (Fin 0) =
  if fgt (r_sq eta E) (Fin 0)
  then np_sqrt (fsub (r_sq eta E) (Fin 0)) else Fin 0.
Proof.
  rewrite thermal_formula_r_sq. now rewrite (c_pow_0_pos 2).
Qed.

(** A negative efficiency never gives a positive [r_sq]. *)
Lemma r_sq_negative_eta eta e :
  0 < e <= DBL_MAX ->
  eta = NInf \/ (exists a, eta = Fin a /\ a < 0) ->
  fgt (r_sq eta (Fin e)) (Fin 0) = false.
Proof.
  intros He Heta. pose proof PI_RGT_0. pose proof DBL_MAX_pos.
  pose proof (Rpower_sixth_bound e He) as [Hp _].
  rewrite r_sq_fin_energy by assumption.
  set (p := Rpower e (Q2R (1 # 6))) in *.
  assert (0 < 2 * PI * (0.42 * p)) as Hq by nra.
  unfold fgt. destruct Heta as [-> | (a & -> & Ha)]; simpl fmul.
  - rewrite inf_signed_neg by lra. simpl.
    now rewrite (proj2 (Rltb_ge _ 0)) by lra.
  - destruct (overflow_cases (a * e)) as [[-> _]|[[-> H2]|[-> _]]]; simpl.
    + rewrite (proj2 (Reqb_neq _ 0)) by lra.
      assert (a * e / (2 * PI * (0.42 * p)) <= 0) as Hn.
      { unfold Rdiv. assert (0 < / (2 * PI * (0.42 * p))) as Hi
          by now apply Rinv_0_lt_compat.
        assert (a * e <= 0) as Hae by nra.
        generalize dependent (/ (2 * PI * (0.42 * p))).
        generalize dependent (a * e). intros; nra. }
      destruct (overflow_cases (a * e / (2 * PI * (0.42 * p))))
        as [[-> _]|[[-> H3]|[-> _]]]; simpl; [|lra|reflexivity].
      now apply Rltb_ge.
    + nra.
    + now rewrite (proj2 (Rltb_ge _ 0)) by lra.
Qed.

(** ** The final radius *)

Lemma energia_E_megatons_range ke e :
  energia_E_megatons ke = Fin e -> - DBL_MAX <= e <= DBL_MAX.
Proof.
  unfold energia_E_megatons. destruct ke as [k| | |]; simpl;
    rewrite ?(proj2 (Rltb_ge 4.184e15 0)) by lra; try discriminate.
  rewrite (proj2 (Reqb_neq 4.184e15 0)) by lra.
  intros H. apply overflow_Fin_inv in H as [-> H]. exact H.
Qed.

Lemma pymax_pinf_l t : pymax PInf t = PInf.
Proof. unfold pymax, fgt. now destruct t. Qed.

Lemma results_of_ground d eta ke :
  flt d (Fin 0.05) = false ->
  raio_dano_explosao_km (results_of d eta ke) =
    round2 (ground_formula (energia_E_megatons ke)) /\
  raio_dano_final_km (results_of d eta ke) =
    round2 (pymax (ground_formula (energia_E_megatons ke))
                  (thermal_formula eta (energia_E_megatons ke) (Fin 0))).
Proof.
  intros Hd. unfold results_of, altitude_h_km. rewrite Hd. split; reflexivity.
Qed.

Lemma blast_fle ke1 ke2 e2 :
  shrinks (energia_E_megatons ke1) (energia_E_megatons ke2) ->
  energia_E_megatons ke2 = Fin e2 -> 0 <= e2 ->
  fle (round2 (ground_formula (energia_E_megatons ke1)))
      (round2 (ground_formula (energia_E_megatons ke2))) = true.
Proof.
  intros H HE He.
  destruct (shrinks_nonneg _ _ _ H HE He) as (e1 & HE1 & Hb).
  rewrite HE, HE1.
  apply round2_mono, ground_formula_mono; apply fle_fin; lra.
Qed.

(** C10 (amended): the blast radius of a ground impact, 5.08 * E^(1/3),
    is monotone nondecreasing in the energy on 0 <= E1 <= E2; so,
    holding velocity, angle and density fixed, a larger diameter in the
    ground-impact regime (0.05 <= d1 <= d2) never gives a smaller blast
    radius, whatever the thermal efficiencies of the two calls; and if
    the larger body's energy is a finite number that is not negative,
    the two blast radii are comparable and in order. *)
Theorem blast_radius_monotone_in_energy_and_diameter :
  (forall E1 E2,
      fle (Fin 0) E1 = true -> fle E1 E2 = true ->
      fle (raio_blast_ground E1) (raio_blast_ground E2) = true) /\
  (forall d1 d2 v a rho eta1 eta2 r1 r2,
      fle (Fin 0.05) d1 = true -> fle d1 d2 = true ->
      calculate_damage_from_pair_model d1 v a rho eta1 = Some r1 ->
      calculate_damage_from_pair_model d2 v a rho eta2 = Some r2 ->
      flt (raio_dano_explosao_km r2) (raio_dano_explosao_km r1) = false /\
      (forall e2,
          energia_E_megatons (kinetic_energy_joules r2) = Fin e2 -> 0 <= e2 ->
          fle (raio_dano_explosao_km r1) (raio_dano_explosao_km r2) = true)).
Proof.
  split; [exact ground_formula_mono|].
  intros d1 d2 v a rho eta1 eta2 r1 r2 H1 H2 Hr1 Hr2.
  apply calculate_damage_Some in Hr1 as (ke1 & Hke1 & ->).
  apply calculate_damage_Some in Hr2 as (ke2 & Hke2 & ->).
  pose proof (shrinks_energia _ _ _ _ _ _ _ H1 H2 Hke1 Hke2) as Hs.
  assert (flt d1 (Fin 0.05) = false) as Hd1 by now apply fle_not_flt.
  assert (flt d2 (Fin 0.05) = false) as Hd2
    by (apply fle_not_flt; eapply fle_trans; eassumption).
  destruct (results_of_ground d1 eta1 ke1 Hd1) as [-> _].
  destruct (results_of_ground d2 eta2 ke2 Hd2) as [-> _].
  split; [now apply blast_no_decrease|].
  intros e2 HE He. now apply (blast_fle ke1 ke2 e2).
Qed.

Lemma energia_sample_larger :
  energia_cinetica_j (Fin 0.2) (Fin 19) (Fin 0) (Fin 3000) = Ok (Fin 0).
Proof.
  eapply energia_cinetica_j_angle_0.
  - apply massa_kg_fin; bound.
  - apply velocidade_2_fin; bound.
  - rewrite fmul_fin by bound. apply fmul_fin. bound.
Qed.

Lemma blast_radius_monotone_witness :
  fle (raio_blast_ground (Fin 1)) (raio_blast_ground (Fin 8)) = true /\
  flt (raio_dano_explosao_km (results_of (Fin 0.2) (Fin 0.9) (Fin 0)))
      (raio_dano_explosao_km (results_of (Fin 0.14) (Fin 0.3) (Fin 0))) = false.
Proof.
  destruct blast_radius_monotone_in_energy_and_diameter as [HE Hd].
  split.
  - apply HE; apply fle_fin; lra.
  - apply (Hd (Fin 0.14) (Fin 0.2) (Fin 19) (Fin 0) (Fin 3000)
              (Fin 0.3) (Fin 0.9)).
    + apply fle_fin. lra.
    + apply fle_fin. lra.
    + apply calculate_damage_Some. exists (Fin 0). split; [|reflexivity].
      apply energia_sample_ground.
    + apply calculate_damage_Some. exists (Fin 0). split; [|reflexivity].
      apply energia_sample_larger.
Defined.

(** ** A vertical impact

    The sample of the specification: a 140 m body at 19 km/s and 90
    degrees is a ground impact with a positive energy, and its blast
    radius is 5.08 * E^(1/3), rounded. *)

Lemma Rpower_third_bound e :
  0 < e <= DBL_MAX -> 0 < Rpower e (Q2R (1 # 3)) <= 1e103.
Proof.
  intros [H0 H1]. pose proof DBL_MAX_bounds. split; [apply Rpower_pos|].
  replace (Q2R (1 # 3)) with (/ 3) by (unfold Q2R; simpl; lra).
  replace 1e103 with (Rpower (Rpower 1e103 (INR 3)) (/ 3)).
  - apply Rle_Rpower_l; [lra|]. split; [assumption|].
    rewrite Rpower_pow by lra. simpl. lra.
  - rewrite Rpower_mult.
    replace (INR 3 * / 3) with 1 by (simpl; lra).
    apply Rpower_1. lra.
Qed.

Lemma ground_formula_fin e :
  0 < e <= DBL_MAX ->
  ground_formula (Fin e) = Fin (5.08 * Rpower e (Q2R (1 # 3))).
Proof.
  intros He. pose proof (Rpower_third_bound e He). pose proof DBL_MAX_bounds.
  unfold ground_formula. rewrite c_pow_fin_pos by (reflexivity || lra).
  rewrite overflow_fin by lra. apply fmul_fin. lra.
Qed.

Lemma np_sin_radians_90 : np_sin (np_radians (Fin 90)) = Fin 1.
Proof.
  unfold np_radians. rewrite fmul_fin by bound. simpl.
  replace (90 * (PI / 180)) with (PI / 2) by field.
  now rewrite sin_PI2.
Qed.

Example sample_vertical_impact :
  exists e r,
    0 < e /\
    calculate_damage_from_pair_model
      (Fin 0.14) (Fin 19) (Fin 90) (Fin 3000) (Fin 0.3) = Some r /\
    energia_megatons r = round2 (Fin e) /\
    altitude_explosao_km r = Fin 0 /\
    raio_dano_explosao_km r = round2 (Fin (5.08 * Rpower e (Q2R (1 # 3)))).
Proof.
  set (m := 3000 * (4 / 3 * PI * (0.14 * 1000 / 2 * (0.14 * 1000 / 2)
                                  * (0.14 * 1000 / 2)))).
  set (ke := 0.5 * m * (19 * 1000 * (19 * 1000)) * 1).
  assert (energia_cinetica_j (Fin 0.14) (Fin 19) (Fin 90) (Fin 3000)
          = Ok (Fin ke)) as Hke.
  { unfold energia_cinetica_j.
    rewrite massa_kg_fin by bound. fold m.
    rewrite velocidade_2_fin by bound. cbn [bind].
    rewrite np_sin_radians_90. unfold ke, m.
    now rewrite !fmul_fin by bound. }
  assert (0 < ke / 4.184e15 <= DBL_MAX) as He by (unfold ke, m; bound).
  assert (energia_E_megatons (Fin ke) = Fin (ke / 4.184e15)) as HE.
  { unfold energia_E_megatons. apply fdiv_fin; lra. }
  exists (ke / 4.184e15), (results_of (Fin 0.14) (Fin 0.3) (Fin ke)).
  split; [lra|]. split.
  - apply calculate_damage_Some. eauto.
  - unfold results_of, altitude_h_km.
    rewrite (proj2 (flt_fin_false 0.14 0.05)) by lra.
    cbn [energia_megatons altitude_explosao_km raio_dano_explosao_km].
    now rewrite HE, round2_0, ground_formula_fin.
Qed.

(** ** A larger body with a smaller final radius

    The final radius is the larger of the blast and the thermal
    radius, and the thermal radius depends on the efficiency, which
    holding velocity, angle and density fixed leaves free. *)

Lemma Rpower_root_le (n : nat) e b :
  (0 < n)%nat -> 0 < e <= b ^ n -> 0 < b -> Rpower e (/ INR n) <= b.
Proof.
  intros Hn He Hb.
  assert (0 < INR n) as Hp by (apply lt_0_INR; lia).
  rewrite <- (Rpower_1 b Hb).
  replace 1 with (INR n * / INR n) by (apply Rinv_r; lra).
  rewrite <- Rpower_mult, Rpower_pow by assumption.
  apply Rle_Rpower_l; [|exact He].
  left. now apply Rinv_0_lt_compat.
Qed.

Lemma Rpower_ge_1 e y : 1 <= e -> 0 <= y -> 1 <= Rpower e y.
Proof.
  intros He Hy.
  replace 1 with (Rpower 1 y) at 1.
  - apply Rle_Rpower_l; lra.
  - unfold Rpower. now rewrite ln_1, Rmult_0_r, exp_0.
Qed.

Lemma flt_between x y a b :
  fle x (Fin a) = true -> a < b -> fle (Fin b) y = true -> flt x y = true.
Proof.
  destruct x, y; simpl; try easy.
  rewrite !Bool.negb_true_iff, !Rltb_ge, Rltb_lt. lra.
Qed.

Lemma energia_vertical d :
  0 < d <= 1e6 ->
  let r := d * 1000 / 2 in
  let ke := 0.5 * (3000 * (4 / 3 * PI * (r * r * r)))
            * (20 * 1000 * (20 * 1000)) * 1 in
  energia_cinetica_j (Fin d) (Fin 20) (Fin 90) (Fin 3000) = Ok (Fin ke) /\
  energia_E_megatons (Fin ke) = Fin (ke / 4.184e15).
Proof.
  intros Hd r ke. pose proof PI2_3_2.
  assert (0 < r <= 1e9) as Hr by (unfold r; lra).
  assert (forall x, 0 < x <= 1e9 -> 0 < x * x * x <= 1e27) as Hcube.
  { intros x Hx. split; [repeat apply Rmult_lt_0_compat; lra|].
    replace 1e27 with (1e9 * 1e9 * 1e9) by lra.
    repeat apply Rmult_le_compat; try lra. apply Rmult_le_pos; lra. }
  pose proof (Hcube r Hr) as Hc.
  assert (0 < PI * (r * r * r) <= 4e27) as Hpc.
  { pose proof PI_4. split; [apply Rmult_lt_0_compat; lra|].
    replace 4e27 with (4 * 1e27) by lra. apply Rmult_le_compat; lra. }
  split.
  - unfold energia_cinetica_j.
    rewrite massa_kg_fin by (fold r; bound). fold r.
    rewrite velocidade_2_fin by bound. cbn [bind].
    rewrite np_sin_radians_90. unfold ke.
    now rewrite !fmul_fin by bound.
  - unfold energia_E_megatons. apply fdiv_fin; [lra|]. unfold ke. bound.
Qed.

(** C10 as stated fails for the final radius: a body of 2000 km at
    20 km/s, 90 degrees and 3000 kg/m^3 with efficiency 1 has a
    thermal radius above 750000 km, which is its final radius; a body
    of 2200 km with the same velocity, angle and density and
    efficiency 0 has no thermal radius, and its final radius is its
    blast radius, below 513080 km. *)
Lemma final_radius_efficiency_counterexample :
  exists r1 r2,
    fle (Fin 0.05) (Fin 2000) = true /\ fle (Fin 2000) (Fin 2200) = true /\
    calculate_damage_from_pair_model
      (Fin 2000) (Fin 20) (Fin 90) (Fin 3000) (Fin 1) = Some r1 /\
    calculate_damage_from_pair_model
      (Fin 2200) (Fin 20) (Fin 90) (Fin 3000) (Fin 0) = Some r2 /\
    fle (Fin 750000) (raio_dano_final_km r1) = true /\
    fle (raio_dano_final_km r2) (Fin 513080) = true /\
    flt (raio_dano_final_km r2) (raio_dano_final_km r1) = true.
Proof.
  destruct (energia_vertical 2000) as [Hke1 HE1]; [lra|].
  destruct (energia_vertical 2200) as [Hke2 HE2]; [lra|].
  cbv zeta in Hke1, HE1, Hke2, HE2.
  set (ke1 := 0.5 * _ * _ * 1) in Hke1, HE1.
  set (ke2 := 0.5 * _ * _ * 1) in Hke2, HE2.
  pose proof PI2_3_2 as Hpi3. pose proof PI_4 as Hpi4.
  pose proof DBL_MAX_bounds as HM.
  assert (5.736e14 <= ke1 / 4.184e15 <= 7.65e14) as He1
    by (unfold ke1; lra).
  assert (7.6e14 <= ke2 / 4.184e15 <= 1.0303e15) as He2
    by (unfold ke2; lra).
  set (e1 := ke1 / 4.184e15) in *. set (e2 := ke2 / 4.184e15) in *.
  (* the first call: the thermal radius is at least 750000 km *)
  assert (1 <= Rpower e1 (Q2R (1 # 6)) <= 303) as Hp.
  { replace (Q2R (1 # 6)) with (/ INR 6) by (unfold Q2R; simpl; lra).
    split; [apply Rpower_ge_1; simpl; lra|].
    apply (Rpower_root_le 6); [lia | simpl; lra | lra]. }
  set (p := Rpower e1 (Q2R (1 # 6))) in *.
  set (q := 2 * PI * (0.42 * p)).
  assert (2.52 <= q <= 1018.08) as Hq by (unfold q; nra).
  assert (750000 * 750000 <= 1 * e1 / q <= 1e15) as Hr.
  { assert (0 < / q) as Hi by (apply Rinv_0_lt_compat; lra).
    assert (q * / q = 1) as Hqi by (apply Rinv_r; lra).
    unfold Rdiv. generalize dependent (/ q). intros; nra. }
  assert (thermal_formula (Fin 1) (Fin e1) (Fin 0) = Fin (sqrt (1 * e1 / q + - 0)))
    as Ht1.
  { rewrite thermal_formula_ground, r_sq_fin_energy by lra. fold p q.
    rewrite fmul_fin, fdiv_fin by lra.
    unfold fgt. simpl flt. rewrite (proj2 (Rltb_lt 0 _)) by lra.
    unfold fsub. simpl. rewrite overflow_fin by lra. simpl.
    now rewrite (proj2 (Rltb_ge _ 0)) by lra. }
  assert (750000 <= sqrt (1 * e1 / q + - 0)) as Hs1.
  { rewrite <- (sqrt_square 750000) at 1 by lra. apply sqrt_le_1_alt. lra. }
  (* the second call: no thermal radius, a blast radius below 513080 km *)
  assert (0 < Rpower e2 (Q2R (1 # 3)) <= 101000) as Hp3.
  { split; [apply Rpower_pos|].
    replace (Q2R (1 # 3)) with (/ INR 3) by (unfold Q2R; simpl; lra).
    apply (Rpower_root_le 3); [lia | simpl; lra | lra]. }
  assert (thermal_formula (Fin 0) (Fin e2) (Fin 0) = Fin 0) as Ht2.
  { rewrite thermal_formula_ground, r_sq_fin_energy by lra.
    pose proof (Rpower_sixth_bound e2) as [Hp6 _]; [lra|].
    rewrite fmul_fin by lra.
    rewrite fdiv_fin by (rewrite ?Rmult_0_l; unfold Rdiv; rewrite ?Rmult_0_l; nra).
    unfold fgt. simpl flt.
    now rewrite (proj2 (Rltb_ge _ _))
      by (unfold Rdiv; rewrite !Rmult_0_l; lra). }
  exists (results_of (Fin 2000) (Fin 1) (Fin ke1)),
         (results_of (Fin 2200) (Fin 0) (Fin ke2)).
  destruct (results_of_ground (Fin 2000) (Fin 1) (Fin ke1)) as [_ ->];
    [apply flt_fin_false; lra|].
  destruct (results_of_ground (Fin 2200) (Fin 0) (Fin ke2)) as [_ ->];
    [apply flt_fin_false; lra|].
  rewrite HE1, HE2. fold e1 e2. rewrite Ht1, Ht2.
  rewrite !ground_formula_fin by lra.
  assert (fle (Fin 750000)
              (round2 (pymax (Fin (5.08 * Rpower e1 (Q2R (1 # 3))))
                             (Fin (sqrt (1 * e1 / q + - 0))))) = true) as H1.
  { replace 750000 with (IZR 750000) at 1 by reflexivity.
    rewrite <- (round2_IZR 750000) by (simpl; lra).
    apply round2_mono.
    apply fle_trans with (Fin (sqrt (1 * e1 / q + - 0)));
      [now apply fle_fin|].
    now apply pymax_ge_r. }
  assert (fle (round2 (pymax (Fin (5.08 * Rpower e2 (Q2R (1 # 3)))) (Fin 0)))
              (Fin 513080) = true) as H2.
  { replace 513080 with (IZR 513080) by reflexivity.
    rewrite <- (round2_IZR 513080) by (simpl; lra).
    apply round2_mono. unfold pymax, fgt. simpl flt.
    rewrite (proj2 (Rltb_ge _ _)) by lra. apply fle_fin. simpl. lra. }
  repeat split; try (apply fle_fin; lra).
  - apply calculate_damage_Some. eauto.
  - apply calculate_damage_Some. eauto.
  - exact H1.
  - exact H2.
  - apply (flt_between _ _ 513080 750000); [exact H2 | lra | exact H1].
Qed.

(** * Further properties of the adapter *)

(** X1: the model handle is [None] exactly when both loaders fail
    with exceptions that derive from [Exception], or when the loader
    whose result is used returns [None] (the file holds [None]); a
    classifier loaded by joblib is the handle whatever pickle would
    give, one loaded by pickle is the handle when joblib fails; among
    the exceptions that derive from [Exception], [load_model] raises
    RuntimeError only; an exception that does not derive from
    [Exception] is caught nowhere and ends the import. *)
Theorem model_handle_none_iff_both_loaders_fail :
  forall joblib_load pickle_load,
    (PHA_CLASSIFIER_MODEL joblib_load pickle_load = Returns None <->
     (exists e1 e2, joblib_load = Fails e1 /\ pickle_load = Fails e2) \/
     joblib_load = Returns None \/
     (exists e, joblib_load = Fails e /\ pickle_load = Returns None)) /\
    (forall m, joblib_load = Returns (Some m) ->
               PHA_CLASSIFIER_MODEL joblib_load pickle_load = Returns (Some m)) /\
    (forall e m, joblib_load = Fails e -> pickle_load = Returns (Some m) ->
                 PHA_CLASSIFIER_MODEL joblib_load pickle_load = Returns (Some m)) /\
    (forall e, load_model joblib_load pickle_load = Fails e -> e = RuntimeError) /\
    (forall e, PHA_CLASSIFIER_MODEL joblib_load pickle_load <> Fails e) /\
    (forall b,
        PHA_CLASSIFIER_MODEL joblib_load pickle_load = Aborts b <->
        joblib_load = Aborts b \/
        exists e, joblib_load = Fails e /\ pickle_load = Aborts b).
Proof.
  intros joblib_load pickle_load.
  unfold PHA_CLASSIFIER_MODEL, load_model.
  destruct joblib_load as [[mj|]|ej|bj], pickle_load as [[mp|]|ep|bp]; cbn;
    repeat split;
    try discriminate; try congruence; eauto;
    try (intros [(e1 & e2 & H1 & H2)|[H|(e & H1 & H2)]]; congruence);
    try (intros [H|(e & H1 & H2)]; congruence).
Qed.

Lemma model_handle_witness :
  PHA_CLASSIFIER_MODEL (Fails (OtherError "corrupt"))
                       (Returns (Some failing_classifier))
  = Returns (Some failing_classifier).
Proof.
  destruct (model_handle_none_iff_both_loaders_fail
              (Fails (OtherError "corrupt")) (Returns (Some failing_classifier)))
    as (_ & _ & H & _).
  now apply (H (OtherError "corrupt")).
Defined.

Lemma input_df_agree (d1 d2 : gmap string xfloat) :
  (forall k, In k features_order -> d1 !! k = d2 !! k) ->
  input_df d1 = input_df d2.
Proof.
  intros H. unfold input_df, DataFrame_of_dict. do 2 f_equal.
  apply map_ext_in. intros k Hk. now rewrite (H k Hk).
Qed.

(** X2: the prediction depends on the dictionary through the five
    feature keys only: two dictionaries that agree on them get the
    same answer; in particular adding or overwriting any other key
    changes nothing. *)
Theorem predict_pha_risk_ignores_other_keys :
  forall (model : option Classifier) (d1 d2 : gmap string xfloat),
    (forall k, In k features_order -> d1 !! k = d2 !! k) ->
    predict_pha_risk model d1 = predict_pha_risk model d2 /\
    (forall k v, ~ In k features_order ->
                 predict_pha_risk model (<[k := v]> d1) =
                 predict_pha_risk model d2).
Proof.
  intros model d1 d2 H. split.
  - unfold predict_pha_risk. now rewrite (input_df_agree d1 d2 H).
  - intros k v Hk. unfold predict_pha_risk.
    rewrite (input_df_agree (<[k := v]> d1) d2); [reflexivity|].
    intros k' Hk'. rewrite lookup_insert_ne; [now apply H|].
    intros ->. contradiction.
Qed.

Lemma predict_pha_risk_ignores_other_keys_witness :
  predict_pha_risk (Some flagging_classifier)
    (<["name" := Fin 1]> (<["velocity_km_s" := Fin 19]> ∅)) =
  predict_pha_risk (Some flagging_classifier)
    (<["velocity_km_s" := Fin 19]> ∅).
Proof.
  apply (predict_pha_risk_ignores_other_keys (Some flagging_classifier)
           (<["velocity_km_s" := Fin 19]> ∅) (<["velocity_km_s" := Fin 19]> ∅)).
  - reflexivity.
  - unfold features_order. simpl. intros [H|[H|[H|[H|[H|[]]]]]]; discriminate.
Defined.

(** X3: a missing feature is passed to the classifier as NaN, never
    reported as an error: removing a key from the dictionary gives
    the same answer as setting it to NaN. *)
Theorem predict_pha_risk_missing_key_is_nan :
  forall (model : option Classifier) (d : gmap string xfloat) (k : string),
    predict_pha_risk model (delete k d) =
    predict_pha_risk model (<[k := NaN]> d).
Proof.
  intros model d k. unfold predict_pha_risk, input_df, DataFrame_of_dict.
  assert (List.map (fun k' => default NaN (delete k d !! k')) features_order =
          List.map (fun k' => default NaN (<[k := NaN]> d !! k')) features_order)
    as ->; [|reflexivity].
  apply map_ext. intros k'. destruct (decide (k = k')) as [->|Hne].
  - now rewrite lookup_delete_eq, lookup_insert_eq.
  - now rewrite lookup_delete_ne, lookup_insert_ne.
Qed.

(** * Further properties of the damage model *)

(** ** What a failure depends on *)

Lemma energia_cinetica_j_raises_indep d v a rho a' rho' :
  (exists e, energia_cinetica_j d v a rho = Raise e) ->
  exists e, energia_cinetica_j d v a' rho' = Raise e.
Proof.
  intros (e & He). exists e.
  apply energia_cinetica_j_raise. now apply energia_cinetica_j_raise in He.
Qed.

(** X4: whether the call fails depends on the diameter and the
    velocity only: changing the angle, the density or the efficiency
    never turns a result into [None] nor [None] into a result. *)
Theorem failure_depends_on_diameter_and_velocity :
  forall d v a rho eta a' rho' eta',
    calculate_damage_from_pair_model d v a rho eta = None <->
    calculate_damage_from_pair_model d v a' rho' eta' = None.
Proof.
  intros. rewrite !calculate_damage_None.
  split; apply energia_cinetica_j_raises_indep.
Qed.

(** ** The sign of the velocity *)

Lemma overflow_opp r : overflow (- r) = fneg (overflow r).
Proof.
  pose proof DBL_MAX_pos.
  destruct (overflow_cases r) as [[-> ?]|[[-> ?]|[-> ?]]]; simpl.
  - apply overflow_fin. lra.
  - apply overflow_ninf. lra.
  - apply overflow_pinf. lra.
Qed.

Lemma inf_signed_opp r : inf_signed (- r) = fneg (inf_signed r).
Proof.
  destruct (Rtotal_order r 0) as [H|[H|H]].
  - now rewrite (inf_signed_neg r), (inf_signed_pos (- r)) by lra.
  - now rewrite !inf_signed_zero by lra.
  - now rewrite (inf_signed_pos r), (inf_signed_neg (- r)) by lra.
Qed.

Lemma fneg_involutive x : fneg (fneg x) = x.
Proof. destruct x; simpl; try reflexivity. f_equal. lra. Qed.

Lemma fmul_fneg_l x y : fmul (fneg x) y = fneg (fmul x y).
Proof.
  destruct x as [a| | |], y as [b| | |]; simpl; try reflexivity;
    rewrite <- ?inf_signed_opp, ?Ropp_involutive; try reflexivity.
  rewrite <- overflow_opp. f_equal. ring.
Qed.

Lemma float_pow_2_fneg x : float_pow (fneg x) 2 = float_pow x 2.
Proof.
  destruct x as [r| | |]; try reflexivity. simpl fneg.
  destruct (Rlt_dec DBL_MAX (r * r)) as [H|H].
  - rewrite (float_pow_2_overflow r H).
    apply float_pow_2_overflow. lra.
  - rewrite !float_pow_2_fin by lra. do 2 f_equal. ring.
Qed.

(** X5: the direction of the velocity is irrelevant: a velocity and
    its opposite give the same outcome, failure included. *)
Theorem velocity_sign_is_irrelevant :
  forall d v a rho eta,
    calculate_damage_from_pair_model d (fneg v) a rho eta =
    calculate_damage_from_pair_model d v a rho eta.
Proof.
  intros d v a rho eta.
  unfold calculate_damage_from_pair_model, calculate_damage_body,
    energia_cinetica_j, velocidade_m_s.
  now rewrite fmul_fneg_l, float_pow_2_fneg.
Qed.

(** X6: the thermal efficiency enters the thermal radius and the
    final radius only: two calls that differ in the efficiency alone
    return the same energy, kinetic energy, altitude and blast
    radius. *)
Theorem efficiency_affects_thermal_only :
  forall d v a rho eta1 eta2 r1 r2,
    calculate_damage_from_pair_model d v a rho eta1 = Some r1 ->
    calculate_damage_from_pair_model d v a rho eta2 = Some r2 ->
    energia_megatons r1 = energia_megatons r2 /\
    kinetic_energy_joules r1 = kinetic_energy_joules r2 /\
    altitude_explosao_km r1 = altitude_explosao_km r2 /\
    raio_dano_explosao_km r1 = raio_dano_explosao_km r2.
Proof.
  intros d v a rho eta1 eta2 r1 r2 H1 H2.
  apply calculate_damage_Some in H1 as (ke1 & Hke1 & ->).
  apply calculate_damage_Some in H2 as (ke2 & Hke2 & ->).
  assert (ke1 = ke2) as -> by congruence.
  repeat split.
Qed.

Lemma efficiency_affects_thermal_only_witness :
  raio_dano_explosao_km (results_of (Fin 0.14) (Fin 0.3) (Fin 0)) =
  raio_dano_explosao_km (results_of (Fin 0.14) (Fin 0.9) (Fin 0)).
Proof.
  apply (efficiency_affects_thermal_only
           (Fin 0.14) (Fin 19) (Fin 0) (Fin 3000) (Fin 0.3) (Fin 0.9)).
  - apply calculate_damage_Some. exists (Fin 0). split; [|reflexivity].
    apply energia_sample_ground.
  - apply calculate_damage_Some. exists (Fin 0). split; [|reflexivity].
    apply energia_sample_ground.
Defined.

(** ** Values that are not negative

    [flt x (Fin 0) = false] holds for a finite value that is at
    least zero, for +inf and for NaN. *)

Lemma not_negative_cases x :
  flt x (Fin 0) = false <->
  x = NaN \/ x = PInf \/ exists r, x = Fin r /\ 0 <= r.
Proof.
  destruct x as [r| | |]; simpl; split; auto; try discriminate.
  - rewrite Rltb_ge. eauto.
  - intros [H|[H|(r' & [= <-] & H)]]; try discriminate. now apply Rltb_ge.
  - intros [H|[H|(r' & H & _)]]; discriminate.
Qed.

Lemma not_negative_overflow r : 0 <= r -> flt (overflow r) (Fin 0) = false.
Proof.
  intros H. pose proof DBL_MAX_pos.
  destruct (overflow_cases r) as [[-> _]|[[-> _]|[-> ?]]];
    [now apply flt_fin_false | reflexivity | lra].
Qed.

Lemma not_negative_inf_signed r : 0 <= r -> flt (inf_signed r) (Fin 0) = false.
Proof.
  intros [H| <-]; [now rewrite inf_signed_pos | now rewrite inf_signed_zero].
Qed.

Lemma not_negative_fmul x y :
  flt x (Fin 0) = false -> flt y (Fin 0) = false ->
  flt (fmul x y) (Fin 0) = false.
Proof.
  rewrite !not_negative_cases.
  intros [->|[->|(a & -> & Ha)]] [->|[->|(b & -> & Hb)]];
    try (left; reflexivity); try (right; left; reflexivity);
    apply not_negative_cases; simpl;
    try (apply not_negative_inf_signed; assumption).
  apply not_negative_overflow. now apply Rmult_le_pos.
Qed.

Lemma not_negative_fadd x y :
  flt x (Fin 0) = false -> flt y (Fin 0) = false ->
  flt (fadd x y) (Fin 0) = false.
Proof.
  rewrite !not_negative_cases.
  intros [->|[->|(a & -> & Ha)]] [->|[->|(b & -> & Hb)]];
    try (left; reflexivity); try (right; left; reflexivity).
  apply not_negative_cases, not_negative_overflow. lra.
Qed.

Lemma not_negative_fdiv_pos x c :
  0 < c -> flt x (Fin 0) = false -> flt (fdiv x (Fin c)) (Fin 0) = false.
Proof.
  intros Hc. rewrite not_negative_cases.
  intros [->|[->|(a & -> & Ha)]]; simpl;
    rewrite ?(proj2 (Rltb_ge c 0)), ?(proj2 (Reqb_neq c 0)) by lra;
    try reflexivity.
  apply not_negative_overflow. unfold Rdiv.
  apply Rmult_le_pos; [assumption|]. now apply Rlt_le, Rinv_0_lt_compat.
Qed.

Lemma not_negative_fin r : 0 <= r -> flt (Fin r) (Fin 0) = false.
Proof. apply flt_fin_false. Qed.

Lemma not_negative_c_pow_frac E q :
  Qzero q = false -> is_integer q = false ->
  flt (c_pow E q) (Fin 0) = false.
Proof.
  intros Hz Hi. unfold c_pow. rewrite Hz.
  destruct E as [e| | |].
  - destruct (Reqb e 0).
    { destruct (Qpositive q); [apply flt_fin_false; lra | reflexivity]. }
    rewrite Hi. destruct (Rltb e 0); simpl; [reflexivity|].
    unfold rpow. rewrite Hi. apply not_negative_overflow, Rlt_le, Rpower_pos.
  - destruct (Qpositive q); [reflexivity | apply flt_fin_false; lra].
  - unfold is_odd_integer. rewrite Hi. simpl.
    destruct (Qpositive q); [reflexivity | apply flt_fin_false; lra].
  - reflexivity.
Qed.

Lemma rne_nonneg r : 0 <= r -> (0 <= rne r)%Z.
Proof.
  intros H. rewrite <- (rne_IZR 0). now apply rne_mono.
Qed.

Lemma not_negative_round2 x :
  flt x (Fin 0) = false -> flt (round2 x) (Fin 0) = false.
Proof.
  intros H. unfold round2. apply not_negative_fdiv_pos; [lra|].
  assert (flt (fmul x (Fin 100)) (Fin 0) = false) as H'
    by (apply not_negative_fmul; [assumption | apply flt_fin_false; lra]).
  apply not_negative_cases in H' as [->|[->|(a & -> & Ha)]]; try reflexivity.
  simpl. apply Rltb_ge, IZR_le, rne_nonneg, Ha.
Qed.

Lemma not_negative_pymax b t :
  flt b (Fin 0) = false -> flt t (Fin 0) = false ->
  flt (pymax b t) (Fin 0) = false.
Proof. intros Hb Ht. unfold pymax. now destruct (fgt t b). Qed.

Lemma fle_not_negative x : fle (Fin 0) x = true -> flt x (Fin 0) = false.
Proof. apply fle_not_flt. Qed.

(** The constant factor of the airburst term, 2.09 * 5^(-0.449) * 25. *)
Lemma airburst_formula_5 E :
  exists k, 0 < k /\
    airburst_formula E (Fin 5) =
    fadd (fmul (Fin k) (c_pow E (-1 # 3))) (fmul (Fin 5.08) (c_pow E (1 # 3))).
Proof.
  pose proof Rpower_5_frac as Hp. pose proof DBL_MAX_bounds.
  exists (2.09 * Rpower 5 (Q2R (-449 # 1000)) * 25). split; [nra|].
  unfold airburst_formula.
  rewrite <- (float_pow_c_pow _ _ _ float_pow_5_frac).
  rewrite <- (float_pow_c_pow _ _ _ float_pow_5_2).
  set (p := Rpower 5 (Q2R (-449 # 1000))) in *.
  rewrite (fmul_fin 2.09 p) by nra.
  now rewrite (fmul_fin (2.09 * p) 25) by nra.
Qed.

Lemma not_negative_ground_formula E : flt (ground_formula E) (Fin 0) = false.
Proof.
  unfold ground_formula. apply not_negative_fmul.
  - apply flt_fin_false. lra.
  - now apply not_negative_c_pow_frac.
Qed.

Lemma not_negative_airburst_formula E :
  flt (airburst_formula E (Fin 5)) (Fin 0) = false.
Proof.
  destruct (airburst_formula_5 E) as (k & Hk & ->).
  apply not_negative_fadd; apply not_negative_fmul;
    try (apply flt_fin_false; lra); now apply not_negative_c_pow_frac.
Qed.

(** X8: no radius of a returned result is negative: the blast radius,
    the thermal radius and the final radius are each at least zero,
    +inf or NaN, and so is the altitude. *)
Theorem radii_are_never_negative :
  forall d v a rho eta r,
    calculate_damage_from_pair_model d v a rho eta = Some r ->
    flt (raio_dano_explosao_km r) (Fin 0) = false /\
    flt (raio_dano_termico_km r) (Fin 0) = false /\
    flt (raio_dano_final_km r) (Fin 0) = false /\
    flt (altitude_explosao_km r) (Fin 0) = false.
Proof.
  intros d v a rho eta r H.
  apply calculate_damage_Some in H as (ke & _ & ->).
  unfold results_of.
  cbn [raio_dano_explosao_km raio_dano_termico_km raio_dano_final_km
       altitude_explosao_km].
  set (E := energia_E_megatons ke).
  assert (flt (if flt d (Fin 0.05) then airburst_formula E (Fin 5)
               else ground_formula E) (Fin 0) = false) as Hb.
  { destruct (flt d (Fin 0.05));
      [apply not_negative_airburst_formula | apply not_negative_ground_formula]. }
  assert (flt (thermal_formula eta E (altitude_h_km d)) (Fin 0) = false) as Ht
    by apply fle_not_negative, thermal_formula_nonneg.
  repeat split; apply not_negative_round2; auto using not_negative_pymax.
  unfold altitude_h_km. destruct (flt d (Fin 0.05)); apply flt_fin_false; lra.
Qed.

Lemma radii_are_never_negative_witness :
  flt (raio_dano_final_km (results_of (Fin 0.03) (Fin 0.3) (Fin 0))) (Fin 0)
  = false.
Proof.
  apply (radii_are_never_negative
           (Fin 0.03) (Fin 20) (Fin 0) (Fin 3000) (Fin 0.3)).
  apply calculate_damage_Some. exists (Fin 0). split; [|reflexivity].
  apply energia_sample_airburst.
Defined.

(** ** Where NaN radii come from *)

Lemma c_pow_frac_nan E q :
  Qzero q = false -> is_integer q = false ->
  c_pow E q = NaN <-> E = NaN \/ exists e, E = Fin e /\ e < 0.
Proof.
  intros Hz Hi. unfold c_pow. rewrite Hz. destruct E as [e| | |].
  - destruct (Reqb e 0) eqn:E0.
    { apply Reqb_eq in E0. subst e. split.
      - destruct (Qpositive q); discriminate.
      - intros [H|(e & [= <-] & H)]; [discriminate | lra]. }
    rewrite Hi. destruct (Rltb e 0) eqn:E1; simpl.
    + apply Rltb_lt in E1. split; eauto.
    + apply Rltb_ge in E1. split.
      * intros H. now apply overflow_not_nan in H.
      * intros [H|(e' & [= <-] & H)]; [discriminate | lra].
  - split; [destruct (Qpositive q); discriminate|].
    intros [H|(e & H & _)]; discriminate.
  - split.
    + unfold is_odd_integer. rewrite Hi. simpl.
      destruct (Qpositive q); discriminate.
    + intros [H|(e & H & _)]; discriminate.
  - split; auto.
Qed.

Lemma fmul_pos_const_nan c x : 0 < c -> fmul (Fin c) x = NaN <-> x = NaN.
Proof.
  intros Hc. destruct x as [a| | |]; simpl;
    rewrite ?(inf_signed_pos c), ?(inf_signed_neg (- c)) by lra;
    split; try discriminate; auto.
  intros H. now apply overflow_not_nan in H.
Qed.

Lemma fadd_not_negative_nan x y :
  flt x (Fin 0) = false -> flt y (Fin 0) = false ->
  fadd x y = NaN <-> x = NaN \/ y = NaN.
Proof.
  rewrite !not_negative_cases.
  intros [->|[->|(a & -> & Ha)]] [->|[->|(b & -> & Hb)]]; simpl;
    split; auto; try discriminate;
    try (intros [H|H]; discriminate).
  intros H. now apply overflow_not_nan in H.
Qed.

Lemma ground_formula_nan E :
  ground_formula E = NaN <-> E = NaN \/ exists e, E = Fin e /\ e < 0.
Proof.
  unfold ground_formula. rewrite fmul_pos_const_nan by lra.
  now apply c_pow_frac_nan.
Qed.

Lemma airburst_formula_nan E :
  airburst_formula E (Fin 5) = NaN <-> E = NaN \/ exists e, E = Fin e /\ e < 0.
Proof.
  destruct (airburst_formula_5 E) as (k & Hk & ->).
  rewrite fadd_not_negative_nan.
  - rewrite !fmul_pos_const_nan by lra.
    rewrite !c_pow_frac_nan by reflexivity. tauto.
  - apply not_negative_fmul; [apply flt_fin_false; lra|].
    now apply not_negative_c_pow_frac.
  - apply not_negative_fmul; [apply flt_fin_false; lra|].
    now apply not_negative_c_pow_frac.
Qed.

Lemma round2_nan_iff x : round2 x = NaN <-> x = NaN.
Proof. split; [apply round2_not_nan | intros ->; apply round2_nan]. Qed.

Lemma pymax_nan_iff b t : t <> NaN -> pymax b t = NaN <-> b = NaN.
Proof.
  intros Ht. split; [|intros ->; apply pymax_nan_l].
  unfold pymax. destruct (fgt t b); [contradiction | auto].
Qed.

Lemma energia_E_megatons_nan ke : energia_E_megatons ke = NaN <-> ke = NaN.
Proof.
  unfold energia_E_megatons. destruct ke as [k| | |]; simpl;
    rewrite ?(proj2 (Rltb_ge 4.184e15 0)), ?(proj2 (Reqb_neq 4.184e15 0)) by lra;
    split; try discriminate; auto.
  intros H. now apply overflow_not_nan in H.
Qed.

Lemma blast_of_results_nan d eta ke :
  raio_dano_explosao_km (results_of d eta ke) = NaN <->
  energia_E_megatons ke = NaN \/
  exists e, energia_E_megatons ke = Fin e /\ e < 0.
Proof.
  unfold results_of. cbn [raio_dano_explosao_km]. rewrite round2_nan_iff.
  destruct (flt d (Fin 0.05));
    [apply airburst_formula_nan | apply ground_formula_nan].
Qed.

Lemma ground_formula_ninf : ground_formula NInf = PInf.
Proof. unfold ground_formula. simpl. now rewrite inf_signed_pos by lra. Qed.

Lemma airburst_formula_ninf : airburst_formula NInf (Fin 5) = PInf.
Proof.
  destruct (airburst_formula_5 NInf) as (k & Hk & ->).
  simpl c_pow. rewrite fmul_fin_0_r. simpl.
  now rewrite inf_signed_pos by lra.
Qed.

(** X9: the blast radius of a returned result is NaN exactly when
    the energy in megatons is NaN or a finite negative number; an
    energy of -inf gives a blast radius and a final radius of +inf;
    the final radius is NaN exactly when the blast radius is; the
    thermal radius is never NaN; the returned energy is NaN exactly
    when the kinetic energy is. *)
Theorem nan_radius_iff_nan_or_negative_energy :
  forall d v a rho eta r,
    calculate_damage_from_pair_model d v a rho eta = Some r ->
    let E := energia_E_megatons (kinetic_energy_joules r) in
    (raio_dano_explosao_km r = NaN <->
     E = NaN \/ exists e, E = Fin e /\ e < 0) /\
    (E = NInf ->
     raio_dano_explosao_km r = PInf /\ raio_dano_final_km r = PInf) /\
    (raio_dano_final_km r = NaN <-> raio_dano_explosao_km r = NaN) /\
    raio_dano_termico_km r <> NaN /\
    (energia_megatons r = NaN <-> kinetic_energy_joules r = NaN).
Proof.
  intros d v a rho eta r H.
  apply calculate_damage_Some in H as (ke & _ & ->). cbn zeta.
  split; [apply blast_of_results_nan|].
  unfold results_of.
  cbn [raio_dano_explosao_km raio_dano_termico_km raio_dano_final_km
       energia_megatons kinetic_energy_joules].
  split.
  { intros ->.
    destruct (flt d (Fin 0.05));
      rewrite ?airburst_formula_ninf, ?ground_formula_ninf,
        pymax_pinf_l, round2_pinf; auto. }
  rewrite !round2_nan_iff.
  split; [apply pymax_nan_iff, thermal_formula_not_nan|].
  split; [apply thermal_formula_not_nan | apply energia_E_megatons_nan].
Qed.

Lemma nan_radius_iff_witness :
  raio_dano_termico_km (results_of (Fin 0.14) (Fin 0.3) (Fin 0)) <> NaN.
Proof.
  apply (nan_radius_iff_nan_or_negative_energy
           (Fin 0.14) (Fin 19) (Fin 0) (Fin 3000) (Fin 0.3)).
  apply calculate_damage_Some. exists (Fin 0). split; [|reflexivity].
  apply energia_sample_ground.
Defined.

(** ** Physical inputs *)

Lemma not_negative_c_pow_3 x :
  flt x (Fin 0) = false -> flt (c_pow x 3) (Fin 0) = false.
Proof.
  rewrite not_negative_cases. intros [->|[->|(r & -> & Hr)]]; try reflexivity.
  unfold c_pow. simpl Qzero. cbv iota.
  destruct (Reqb r 0); [apply flt_fin_false; simpl; lra|].
  rewrite Bool.andb_false_r, rpow_3.
  apply not_negative_overflow. repeat apply Rmult_le_pos; assumption.
Qed.

Lemma not_negative_c_pow_2 x : flt (c_pow x 2) (Fin 0) = false.
Proof.
  destruct x as [r| | |]; try reflexivity.
  unfold c_pow. simpl Qzero. cbv iota.
  destruct (Reqb r 0); [apply flt_fin_false; simpl; lra|].
  rewrite Bool.andb_false_r, rpow_2.
  apply not_negative_overflow. nra.
Qed.

Lemma not_negative_sin_radians t :
  0 <= t <= 180 -> flt (np_sin (np_radians (Fin t))) (Fin 0) = false.
Proof.
  intros Ht. pose proof PI_RGT_0. pose proof PI_4. pose proof DBL_MAX_bounds.
  unfold np_radians. rewrite fmul_fin by nra. simpl.
  apply Rltb_ge, sin_ge_0; nra.
Qed.

Lemma not_negative_energia d v t rho ke :
  flt d (Fin 0) = false -> flt rho (Fin 0) = false -> 0 <= t <= 180 ->
  energia_cinetica_j d v (Fin t) rho = Ok ke ->
  flt ke (Fin 0) = false.
Proof.
  intros Hd Hrho Ht Hke.
  rewrite (energia_cinetica_j_formula _ _ _ _ _ Hke).
  unfold kinetic_energy_formula.
  repeat apply not_negative_fmul;
    auto using not_negative_sin_radians, not_negative_c_pow_2.
  - apply flt_fin_false. lra.
  - apply flt_fin_false. lra.
  - unfold np_pi. apply flt_fin_false. pose proof PI_RGT_0. lra.
  - apply not_negative_c_pow_3, not_negative_fdiv_pos; [lra|].
    apply not_negative_fmul; [assumption | apply flt_fin_false; lra].
Qed.

(** X10: with a diameter and a density that are not negative and an
    angle between 0 and 180 degrees, the kinetic energy and the
    energy in megatons of a returned result are never negative, and
    the blast radius is NaN only when the kinetic energy itself is
    NaN. *)
Theorem physical_inputs_energy_not_negative :
  forall d v t rho eta r,
    flt d (Fin 0) = false -> flt rho (Fin 0) = false -> 0 <= t <= 180 ->
    calculate_damage_from_pair_model d v (Fin t) rho eta = Some r ->
    flt (kinetic_energy_joules r) (Fin 0) = false /\
    flt (energia_megatons r) (Fin 0) = false /\
    (raio_dano_explosao_km r = NaN <-> kinetic_energy_joules r = NaN).
Proof.
  intros d v t rho eta r Hd Hrho Ht H.
  apply calculate_damage_Some in H as (ke & Hke & ->).
  pose proof (not_negative_energia _ _ _ _ _ Hd Hrho Ht Hke) as Hn.
  assert (flt (energia_E_megatons ke) (Fin 0) = false) as HE
    by (apply not_negative_fdiv_pos; [lra | assumption]).
  split; [exact Hn|]. split; [now apply not_negative_round2|].
  rewrite blast_of_results_nan.
  change (kinetic_energy_joules (results_of d eta ke)) with ke.
  split; [|intros ->; now left].
  intros [H|(e & He & Hlt)]; [now apply energia_E_megatons_nan|].
  rewrite He in HE. apply flt_fin_false in HE. lra.
Qed.

Lemma physical_inputs_witness :
  flt (kinetic_energy_joules (results_of (Fin 0.14) (Fin 0.3) (Fin 0))) (Fin 0)
  = false.
Proof.
  apply (physical_inputs_energy_not_negative
           (Fin 0.14) (Fin 19) 0 (Fin 3000) (Fin 0.3)).
  - apply flt_fin_false. lra.
  - apply flt_fin_false. lra.
  - lra.
  - apply calculate_damage_Some. exists (Fin 0). split; [|reflexivity].
    apply energia_sample_ground.
Defined.

(** ** The efficiency *)

Lemma fmul_nan_r x : fmul x NaN = NaN.
Proof. now destruct x. Qed.

Lemma fdiv_nan_r x : fdiv x NaN = NaN.
Proof. now destruct x. Qed.

Lemma fmul_pos_pinf c : 0 < c -> fmul (Fin c) PInf = PInf.
Proof. intros H. simpl. now apply inf_signed_pos. Qed.

Lemma fmul_by_inf_not_fin x y :
  y = PInf \/ y = NInf -> fmul x y = PInf \/ fmul x y = NInf \/ fmul x y = NaN.
Proof.
  intros [-> | ->]; destruct x as [a| | |]; simpl; auto;
    unfold inf_signed; repeat destruct (Rltb _ _); auto.
Qed.

Lemma fdiv_inf_by_pinf x :
  x = PInf \/ x = NInf \/ x = NaN -> fdiv x PInf = NaN.
Proof. now intros [-> | [-> | ->]]. Qed.

Lemma Zi_infinite_energy E : E = PInf \/ E = NInf -> Zi E = PInf.
Proof.
  intros [-> | ->]; unfold Zi; simpl c_pow; apply fmul_pos_pinf; lra.
Qed.

(** An energy that is NaN, infinite or negative makes [r_sq] NaN. *)
Lemma r_sq_degenerate eta E :
  E = NaN \/ E = PInf \/ E = NInf \/ (exists e, E = Fin e /\ e < 0) ->
  r_sq eta E = NaN.
Proof.
  pose proof PI_RGT_0.
  intros [->|[HE|[HE|(e & -> & He)]]]; unfold r_sq.
  - unfold Zi. simpl c_pow. now rewrite !fmul_nan_r, fdiv_nan_r.
  - rewrite (Zi_infinite_energy E) by auto.
    rewrite two_pi, fmul_pos_pinf by lra.
    apply fdiv_inf_by_pinf, fmul_by_inf_not_fin. auto.
  - rewrite (Zi_infinite_energy E) by auto.
    rewrite two_pi, fmul_pos_pinf by lra.
    apply fdiv_inf_by_pinf, fmul_by_inf_not_fin. auto.
  - unfold Zi.
    assert (c_pow (Fin e) (1 # 6) = NaN) as ->
      by (apply c_pow_frac_nan; [reflexivity.. | eauto]).
    now rewrite !fmul_nan_r, fdiv_nan_r.
Qed.

Lemma energy_cases ke :
  (exists e, energia_E_megatons ke = Fin e /\ 0 < e <= DBL_MAX) \/
  energia_E_megatons ke = Fin 0 \/
  (energia_E_megatons ke = NaN \/ energia_E_megatons ke = PInf \/
   energia_E_megatons ke = NInf \/
   exists e, energia_E_megatons ke = Fin e /\ e < 0).
Proof.
  destruct (energia_E_megatons ke) as [e| | |] eqn:HE; auto 6.
  pose proof (energia_E_megatons_range _ _ HE).
  destruct (Rtotal_order e 0) as [H0|[->|H0]].
  - right. right. eauto 6.
  - auto.
  - left. exists e. split; [reflexivity | lra].
Qed.

Lemma c_pow_altitude_2 d :
  exists hh, c_pow (altitude_h_km d) 2 = Fin hh /\ 0 <= hh.
Proof.
  unfold altitude_h_km. destruct (flt d (Fin 0.05)).
  - exists 25. rewrite <- (float_pow_c_pow _ _ _ float_pow_5_2). split; [reflexivity|lra].
  - exists 0. rewrite <- (float_pow_c_pow _ _ _ float_pow_0_2). split; [reflexivity|lra].
Qed.

Lemma fgt_weaken r hh :
  0 <= hh -> fgt r (Fin 0) = false -> fgt r (Fin hh) = false.
Proof.
  intros Hh. unfold fgt. destruct r as [a| | |]; simpl; try easy.
  rewrite !Rltb_ge. lra.
Qed.

Lemma r_sq_nonpos_eta eta e :
  0 < e <= DBL_MAX -> fle eta (Fin 0) = true ->
  fgt (r_sq eta (Fin e)) (Fin 0) = false.
Proof.
  intros He Heta. destruct eta as [a| | |]; try discriminate.
  - apply fle_fin in Heta. destruct Heta as [Ha| ->].
    + apply r_sq_negative_eta; eauto.
    + pose proof PI_RGT_0. pose proof DBL_MAX_pos.
      pose proof (Rpower_sixth_bound e He) as [Hp _].
      rewrite r_sq_fin_energy by assumption.
      rewrite fmul_fin by lra. rewrite fdiv_fin; [|nra|].
      * apply flt_fin_false. unfold Rdiv. rewrite !Rmult_0_l. lra.
      * unfold Rdiv. rewrite !Rmult_0_l. lra.
  - apply r_sq_negative_eta; auto.
Qed.

Lemma thermal_formula_nonpos_eta eta ke d :
  fle eta (Fin 0) = true ->
  thermal_formula eta (energia_E_megatons ke) (altitude_h_km d) = Fin 0.
Proof.
  intros Heta. rewrite thermal_formula_r_sq.
  destruct (c_pow_altitude_2 d) as (hh & -> & Hh).
  destruct (energy_cases ke) as [(e & -> & He)|[-> | Hdeg]].
  - now rewrite (fgt_weaken _ hh Hh (r_sq_nonpos_eta eta e He Heta)).
  - now rewrite r_sq_0.
  - now rewrite (r_sq_degenerate eta _ Hdeg).
Qed.

(** X7: with an efficiency that is zero or negative the thermal
    radius of a returned result is exactly 0.0 and the final radius
    is the blast radius. *)
Theorem no_thermal_radius_without_efficiency :
  forall d v a rho eta r,
    fle eta (Fin 0) = true ->
    calculate_damage_from_pair_model d v a rho eta = Some r ->
    raio_dano_termico_km r = Fin 0 /\
    raio_dano_final_km r = raio_dano_explosao_km r.
Proof.
  intros d v a rho eta r Heta H.
  apply calculate_damage_Some in H as (ke & _ & ->).
  unfold results_of.
  cbn [raio_dano_termico_km raio_dano_final_km raio_dano_explosao_km].
  rewrite (thermal_formula_nonpos_eta eta ke d Heta), round2_0.
  split; [reflexivity|]. f_equal. unfold pymax, fgt.
  destruct (flt d (Fin 0.05)).
  - now rewrite not_negative_airburst_formula.
  - now rewrite not_negative_ground_formula.
Qed.

Lemma no_thermal_radius_witness :
  raio_dano_termico_km (results_of (Fin 0.14) (Fin 0) (Fin 0)) = Fin 0.
Proof.
  apply (no_thermal_radius_without_efficiency
           (Fin 0.14) (Fin 19) (Fin 0) (Fin 3000) (Fin 0)).
  - apply fle_fin. lra.
  - apply calculate_damage_Some. exists (Fin 0). split; [|reflexivity].
    apply energia_sample_ground.
Defined.

Lemma r_sq_mono_eta eta1 eta2 e :
  0 < e <= DBL_MAX -> fle eta1 eta2 = true ->
  fle (r_sq eta1 (Fin e)) (r_sq eta2 (Fin e)) = true.
Proof.
  intros He H. pose proof PI_RGT_0.
  pose proof (Rpower_sixth_bound e He) as [Hp _].
  rewrite !r_sq_fin_energy by assumption.
  apply fdiv_pos_r_mono; [nra|]. apply fmul_pos_r_mono; [lra | assumption].
Qed.

Lemma thermal_formula_mono_eta eta1 eta2 ke d :
  fle eta1 eta2 = true ->
  fle (thermal_formula eta1 (energia_E_megatons ke) (altitude_h_km d))
      (thermal_formula eta2 (energia_E_megatons ke) (altitude_h_km d)) = true.
Proof.
  intros H. rewrite !thermal_formula_r_sq.
  destruct (c_pow_altitude_2 d) as (hh & -> & Hh).
  destruct (energy_cases ke) as [(e & -> & He)|[-> | Hdeg]].
  - now apply clamp_sqrt_mono, r_sq_mono_eta.
  - rewrite !r_sq_0. apply fle_fin. lra.
  - rewrite !(r_sq_degenerate _ _ Hdeg). apply fle_fin. lra.
Qed.

(** X12: a larger efficiency never gives a smaller thermal radius,
    nor a smaller final radius, all other parameters being equal. *)
Theorem thermal_radius_monotone_in_efficiency :
  forall d v a rho eta1 eta2 r1 r2,
    fle eta1 eta2 = true ->
    calculate_damage_from_pair_model d v a rho eta1 = Some r1 ->
    calculate_damage_from_pair_model d v a rho eta2 = Some r2 ->
    fle (raio_dano_termico_km r1) (raio_dano_termico_km r2) = true /\
    flt (raio_dano_final_km r2) (raio_dano_final_km r1) = false /\
    (raio_dano_explosao_km r1 <> NaN ->
     fle (raio_dano_final_km r1) (raio_dano_final_km r2) = true).
Proof.
  intros d v a rho eta1 eta2 r1 r2 Heta H1 H2.
  apply calculate_damage_Some in H1 as (ke1 & Hke1 & ->).
  apply calculate_damage_Some in H2 as (ke2 & Hke2 & ->).
  assert (ke1 = ke2) as -> by congruence.
  pose proof (thermal_formula_mono_eta eta1 eta2 ke2 d Heta) as Ht.
  unfold results_of.
  cbn [raio_dano_termico_km raio_dano_final_km raio_dano_explosao_km].
  set (b := if flt d (Fin 0.05)
            then airburst_formula (energia_E_megatons ke2) (Fin 5)
            else ground_formula (energia_E_megatons ke2)).
  split; [now apply round2_mono|].
  destruct (xfloat_nan_dec b) as [Hb|Hb].
  - rewrite Hb, !pymax_nan_l, round2_nan. split; [reflexivity|].
    intros Hn. now destruct Hn.
  - assert (fle (round2 (pymax b (thermal_formula eta1 (energia_E_megatons ke2)
                                    (altitude_h_km d))))
                (round2 (pymax b (thermal_formula eta2 (energia_E_megatons ke2)
                                    (altitude_h_km d)))) = true) as Hf
      by (apply round2_mono, pymax_mono; [now apply fle_refl | assumption]).
    split; [now apply fle_not_flt | auto].
Qed.

Lemma thermal_radius_monotone_in_efficiency_witness :
  fle (raio_dano_termico_km (results_of (Fin 0.14) (Fin 0.3) (Fin 0)))
      (raio_dano_termico_km (results_of (Fin 0.14) (Fin 0.9) (Fin 0))) = true.
Proof.
  apply (thermal_radius_monotone_in_efficiency
           (Fin 0.14) (Fin 19) (Fin 0) (Fin 3000) (Fin 0.3) (Fin 0.9)).
  - apply fle_fin. lra.
  - apply calculate_damage_Some. exists (Fin 0). split; [|reflexivity].
    apply energia_sample_ground.
  - apply calculate_damage_Some. exists (Fin 0). split; [|reflexivity].
    apply energia_sample_ground.
Defined.

(** ** Airburst against ground impact *)

Lemma fadd_ge_r x y :
  fle (Fin 0) x = true -> fle (Fin 0) y = true -> fle y (fadd x y) = true.
Proof.
  destruct x as [a| | |], y as [b| | |]; simpl; try easy.
  rewrite !Bool.negb_true_iff, !Rltb_ge. intros Ha Hb.
  pose proof DBL_MAX_pos.
  destruct (overflow_cases (a + b)) as [[-> _]|[[-> _]|[-> ?]]];
    [apply fle_fin; lra | reflexivity | lra].
Qed.

Lemma c_pow_frac_nonneg_ext E q :
  fle (Fin 0) E = true -> Qzero q = false -> is_integer q = false ->
  fle (Fin 0) (c_pow E q) = true.
Proof.
  intros HE Hz Hi. apply flt_false_fle; try discriminate.
  - intros Hn. apply (c_pow_frac_nan E q Hz Hi) in Hn as [->|(e & -> & He)].
    + discriminate.
    + apply fle_fin in HE. lra.
  - now apply not_negative_c_pow_frac.
Qed.

Lemma fmul_pos_const_nonneg c x :
  0 < c -> fle (Fin 0) x = true -> fle (Fin 0) (fmul (Fin c) x) = true.
Proof.
  intros Hc Hx. rewrite <- (fmul_fin_0_r c). now apply fmul_pos_l_mono.
Qed.

(** X11: for the same energy, zero or more, the blast radius the
    airburst branch computes is never smaller than the one of the
    ground-impact branch. *)
Theorem airburst_blast_at_least_ground_blast :
  forall E ground airburst,
    fle (Fin 0) E = true ->
    raio_blast_km E (Fin 0) = Ok ground ->
    raio_blast_km E (Fin 5) = Ok airburst ->
    fle ground airburst = true.
Proof.
  intros E ground airburst HE Hg Ha.
  unfold raio_blast_km in Hg, Ha. rewrite fgt_0_0 in Hg. rewrite fgt_5_0 in Ha.
  injection Hg as <-.
  pose proof (raio_blast_km_altitude E (Fin 0.01)) as Hb.
  unfold raio_blast_km, altitude_h_km in Hb.
  rewrite (proj2 (flt_fin 0.01 0.05)) in Hb by lra.
  rewrite fgt_5_0, Ha in Hb. injection Hb as ->.
  destruct (airburst_formula_5 E) as (k & Hk & ->).
  apply fadd_ge_r; apply fmul_pos_const_nonneg; try lra;
    now apply c_pow_frac_nonneg_ext.
Qed.

Lemma airburst_blast_witness :
  fle (raio_blast_ground (Fin 0)) PInf = true.
Proof.
  apply (airburst_blast_at_least_ground_blast (Fin 0)).
  - apply fle_fin. lra.
  - unfold raio_blast_km. now rewrite fgt_0_0.
  - pose proof (raio_blast_km_altitude (Fin 0) (Fin 0.01)) as Hb.
    unfold altitude_h_km in Hb.
    rewrite (proj2 (flt_fin 0.01 0.05)) in Hb by lra.
    now rewrite airburst_formula_0 in Hb.
Defined.

(** ** Inputs of plausible magnitude *)

Lemma Rmult_bounds a b A B :
  0 <= a <= A -> 0 <= b <= B -> 0 <= a * b <= A * B.
Proof.
  intros [Ha HA] [Hb HB]. split; [now apply Rmult_le_pos|].
  now apply Rmult_le_compat.
Qed.

Lemma energia_cinetica_j_plausible d v t rho :
  0 <= d <= 1e6 -> -3e5 <= v <= 3e5 -> 0 <= rho <= 1e18 -> 0 <= t <= 180 ->
  exists k, energia_cinetica_j (Fin d) (Fin v) (Fin t) (Fin rho) = Ok (Fin k) /\
            0 <= k <= 1e62.
Proof.
  intros Hd Hv Hrho Ht.
  pose proof DBL_MAX_bounds. pose proof PI_RGT_0. pose proof PI_4.
  set (r := d * 1000 / 2).
  assert (0 <= r <= 5e8) as Hr by (unfold r; lra).
  pose proof (Rmult_bounds r r _ _ Hr Hr) as Hr2.
  pose proof (Rmult_bounds (r * r) r _ _ Hr2 Hr) as Hr3.
  set (c := r * r * r) in *.
  assert (0 <= 4 / 3 * PI <= 6) as Hpi by lra.
  pose proof (Rmult_bounds (4 / 3 * PI) c _ _ Hpi Hr3) as Hvol.
  pose proof (Rmult_bounds rho (4 / 3 * PI * c) _ _ Hrho Hvol) as Hm.
  set (m := rho * (4 / 3 * PI * c)) in *.
  assert (0 <= 0.5 * m <= 0.5 * (1e18 * (6 * (5e8 * 5e8 * 5e8)))) as Hh by lra.
  set (w := v * 1000 * (v * 1000)).
  assert (0 <= w <= 9e16) as Hw by (unfold w; nra).
  pose proof (Rmult_bounds (0.5 * m) w _ _ Hh Hw) as Hp.
  set (x := t * (PI / 180)).
  assert (0 <= x <= PI) as Hx by (unfold x; nra).
  assert (0 <= sin x <= 1) as Hs.
  { split; [apply sin_ge_0; lra|]. apply SIN_bound. }
  pose proof (Rmult_bounds (0.5 * m * w) (sin x) _ _ Hp Hs) as Hk.
  exists (0.5 * m * w * sin x). split; [|lra].
  unfold energia_cinetica_j.
  rewrite massa_kg_fin by (fold r; fold c; fold m; lra).
  fold r. fold c. fold m.
  rewrite velocidade_2_fin by (fold w; lra). fold w. cbn [bind].
  unfold np_radians. rewrite (fmul_fin t) by (fold x; lra). fold x.
  cbn [np_sin].
  rewrite (fmul_fin 0.5 m) by lra.
  rewrite (fmul_fin (0.5 * m) w) by lra.
  rewrite (fmul_fin (0.5 * m * w)) by lra. reflexivity.
Qed.

(** X13: for a diameter up to 1e6 km, a speed up to 3e5 km/s, a
    density up to 1e18 kg/m3 (none negative) and an angle between 0
    and 180 degrees, whatever the efficiency, the call returns a
    result (no step overflows), the kinetic energy is finite and not
    negative, and the blast radius and the final radius are not
    NaN. *)
Theorem plausible_inputs_return_a_result :
  forall d v t rho eta,
    0 <= d <= 1e6 -> -3e5 <= v <= 3e5 -> 0 <= rho <= 1e18 -> 0 <= t <= 180 ->
    exists r k,
      calculate_damage_from_pair_model (Fin d) (Fin v) (Fin t) (Fin rho) eta
        = Some r /\
      kinetic_energy_joules r = Fin k /\ 0 <= k <= 1e62 /\
      raio_dano_explosao_km r <> NaN /\
      raio_dano_final_km r <> NaN.
Proof.
  intros d v t rho eta Hd Hv Hrho Ht.
  destruct (energia_cinetica_j_plausible d v t rho Hd Hv Hrho Ht)
    as (k & Hke & Hk).
  pose proof DBL_MAX_bounds.
  exists (results_of (Fin d) eta (Fin k)), k.
  assert (energia_E_megatons (Fin k) = Fin (k / 4.184e15)) as HE.
  { unfold energia_E_megatons. apply fdiv_fin; lra. }
  assert (raio_dano_explosao_km (results_of (Fin d) eta (Fin k)) <> NaN) as Hb.
  { rewrite blast_of_results_nan, HE.
    intros [Hn|(e & [= <-] & He)]; [discriminate | lra]. }
  split; [apply calculate_damage_Some; eauto|].
  split; [reflexivity|]. split; [assumption|]. split; [assumption|].
  unfold results_of in *.
  cbn [raio_dano_explosao_km raio_dano_final_km] in *.
  rewrite round2_nan_iff in *.
  rewrite pymax_nan_iff; [assumption | apply thermal_formula_not_nan].
Qed.

Lemma plausible_inputs_witness :
  exists r k,
    calculate_damage_from_pair_model
      (Fin 0.14) (Fin 19) (Fin 90) (Fin 3000) (Fin 0.3) = Some r /\
    kinetic_energy_joules r = Fin k /\ 0 <= k <= 1e62 /\
    raio_dano_explosao_km r <> NaN /\
    raio_dano_final_km r <> NaN.
Proof.
  apply (plausible_inputs_return_a_result 0.14 19 90 3000 (Fin 0.3)); lra.
Defined.

(** * main.py: fetching the model file *)

Lemma write_chunks_concat cs : write_chunks cs = List.concat cs.
Proof.
  unfold write_chunks.
  assert (forall acc,
             fold_left (fun content chunk =>
                          match chunk with
                          | [] => content
                          | _ => content ++ chunk
                          end) cs acc = acc ++ List.concat cs) as H.
  { induction cs as [|c cs IH]; intros acc; simpl.
    - now rewrite app_nil_r.
    - rewrite IH. destruct c; [reflexivity|]. now rewrite <- app_assoc. }
  apply H.
Qed.

Ltac download_steps remote file_id dest_path :=
  unfold download_from_drive, download_body, bindM, liftM, send,
    make_parents, raise_for_status, write_file, retM;
  destruct (mkdir_parents remote dest_path) as [?made [[]|?]];
  cbn -[download_warning_token];
  [destruct (session_get remote {| request_id := file_id;
                                   request_confirm := None |})
     as [?r1|?] eqn:?Hget1; cbn -[download_warning_token];
   [destruct (http_error r1) eqn:?Hstatus1; cbn -[download_warning_token];
    [|destruct (truthy (download_warning_token (cookies r1))) eqn:?Htoken;
      cbn -[download_warning_token];
      [destruct (session_get remote
                   {| request_id := file_id;
                      request_confirm := download_warning_token (cookies r1) |})
         as [?r2|?] eqn:?Hget2; cbn -[download_warning_token];
       [destruct (http_error r2) eqn:?Hstatus2; cbn -[download_warning_token];
        [|destruct (open_wb remote dest_path) as [[]|?];
          cbn -[download_warning_token];
          [destruct (stream_error r2) eqn:?Hstream|]]|]
      |destruct (open_wb remote dest_path) as [[]|?];
       cbn -[download_warning_token];
       [destruct (stream_error r1) eqn:?Hstream|]]]|]|].

(** X14: when [download_from_drive] returns [True] the file holds
    exactly the body of the last response, chunk after chunk; one
    request was sent if the first response carried no non-empty
    download_warning token, and otherwise a second one, carrying that
    token as [confirm]; every response had a good status. *)
Theorem download_success_writes_last_body :
  forall remote file_id dest_path st st',
    download_from_drive remote file_id dest_path st = (true, st') ->
    let first := {| request_id := file_id; request_confirm := None |} in
    exists r1 final,
      session_get remote first = Ok r1 /\
      http_error r1 = None /\ http_error final = None /\
      stream_error final = None /\
      files st' = <[dest_path := List.concat (chunks final)]> (files st) /\
      let token := download_warning_token (cookies r1) in
      let second := {| request_id := file_id; request_confirm := token |} in
      (truthy token = false /\ final = r1 /\ sent st' = sent st ++ [first]) \/
      (truthy token = true /\ session_get remote second = Ok final /\
       sent st' = sent st ++ [first; second]).
Proof.
  intros remote file_id dest_path st st'.
  download_steps remote file_id dest_path; intros [= <-].
  - exists r1, r2. cbn. rewrite write_chunks_concat, <- app_assoc.
    repeat split; auto.
  - exists r1, r1. cbn. rewrite write_chunks_concat.
    repeat split; auto.
Qed.

Lemma download_success_witness :
  exists st' final,
    download_from_drive steady_remote MODEL_ID MODEL_PATH fresh_machine
      = (true, st') /\
    files st' = <[MODEL_PATH := List.concat (chunks final)]> ∅.
Proof.
  set (st1 := snd (download_from_drive steady_remote MODEL_ID MODEL_PATH
                     fresh_machine)).
  assert (download_from_drive steady_remote MODEL_ID MODEL_PATH fresh_machine =
          (true, st1)) as H by reflexivity.
  destruct (download_success_writes_last_body _ _ _ _ _ H)
    as (r1 & final & _ & _ & _ & _ & Hfiles & _).
  exists st1, final. split; [exact H | exact Hfiles].
Defined.



Lemma download_true_creates_file remote file_id dest_path st st' :
  download_from_drive remote file_id dest_path st = (true, st') ->
  exists body, files st' !! dest_path = Some body.
Proof.
  download_steps remote file_id dest_path; intros [= <-]; cbn;
    eexists; apply lookup_insert_eq.
Qed.

Lemma download_false_files remote file_id dest_path st st' :
  download_from_drive remote file_id dest_path st = (false, st') ->
  files st' = files st \/ exists body, files st' !! dest_path = Some body.
Proof.
  download_steps remote file_id dest_path; intros [= <-]; cbn;
    first [left; reflexivity | right; eexists; apply lookup_insert_eq].
Qed.

Lemma path_exists_file st p body :
  files st !! p = Some body -> path_exists st p = true.
Proof. intros H. unfold path_exists. now rewrite H. Qed.

Lemma path_exists_false_no_file st p :
  path_exists st p = false -> files st !! p = None.
Proof. unfold path_exists. now destruct (files st !! p). Qed.

Lemma ensure_model_present remote model_path file_id st :
  path_exists st model_path = true ->
  ensure_model remote model_path file_id st = (true, st).
Proof. intros H. unfold ensure_model. now rewrite H. Qed.

(** X17: [ensure_model] is idempotent: once it has returned [True]
    the path exists (as a regular file, or as a directory, which
    [Path.exists] accepts as well), and any later call, whatever the
    network and the file id, returns [True] without sending a request
    or touching the file system; when the path did not exist before
    the call, it is now a regular file. *)
Theorem ensure_model_idempotent :
  forall remote model_path file_id st st',
    ensure_model remote model_path file_id st = (true, st') ->
    path_exists st' model_path = true /\
    (path_exists st model_path = true -> st' = st) /\
    (path_exists st model_path = false ->
     exists body, files st' !! model_path = Some body) /\
    forall remote' file_id',
      ensure_model remote' model_path file_id' st' = (true, st').
Proof.
  intros remote model_path file_id st st' H.
  unfold ensure_model in H.
  destruct (path_exists st model_path) eqn:E.
  - injection H as <-. repeat split; auto; try discriminate.
    intros remote' file_id'. now apply ensure_model_present.
  - destruct (download_true_creates_file _ _ _ _ _ H) as (body & Hb).
    pose proof (path_exists_file _ _ _ Hb) as He.
    repeat split; eauto; try discriminate.
    intros remote' file_id'. now apply ensure_model_present.
Qed.

Lemma ensure_model_idempotent_witness :
  ensure_model offline_remote MODEL_PATH MODEL_ID directory_machine
    = (true, directory_machine) /\
  files directory_machine !! MODEL_PATH = None.
Proof.
  assert (ensure_model steady_remote MODEL_PATH MODEL_ID directory_machine =
          (true, directory_machine)) as H by reflexivity.
  split; [|reflexivity].
  apply (ensure_model_idempotent _ _ _ _ _ H).
Defined.

(** X16: a start that exits does so with status 1, and only when the
    model file was missing; it leaves the files as they were, or it
    leaves a model file behind (the part of the body received before
    the stream broke) that every later start takes for the model:
    the later start serves without sending a request. *)
Theorem failed_start_leaves_nothing_or_an_accepted_file :
  forall remote st status st1,
    startup remote st = (Exited status, st1) ->
    status = 1%Z /\
    files st !! MODEL_PATH = None /\
    (files st1 = files st \/
     (exists body, files st1 !! MODEL_PATH = Some body) /\
     forall remote', startup remote' st1 = (Serving, st1)).
Proof.
  intros remote st status st1. unfold startup.
  destruct (ensure_model remote MODEL_PATH MODEL_ID st) as [[|] st'] eqn:E;
    [discriminate|].
  intros [= <- <-]. split; [reflexivity|].
  unfold ensure_model in E.
  destruct (path_exists st MODEL_PATH) eqn:Hl; [discriminate|].
  split; [now apply path_exists_false_no_file|].
  destruct (download_false_files _ _ _ _ _ E) as [H|(body & Hb)]; [now left|].
  right. split; [eauto|]. intros remote'.
  now rewrite (ensure_model_present remote' _ _ _ (path_exists_file _ _ _ Hb)).
Qed.

Lemma failed_start_witness :
  exists st1,
    startup interrupted_remote fresh_machine = (Exited 1, st1) /\
    files st1 !! MODEL_PATH = Some [x50] /\
    startup offline_remote st1 = (Serving, st1).
Proof.
  set (st1 := snd (startup interrupted_remote fresh_machine)).
  assert (startup interrupted_remote fresh_machine = (Exited 1, st1)) as H
    by reflexivity.
  assert (files st1 !! MODEL_PATH = Some [x50]) as Hfile
    by apply lookup_insert_eq.
  exists st1. split; [exact H|]. split; [exact Hfile|].
  destruct (failed_start_leaves_nothing_or_an_accepted_file _ _ _ _ H)
    as (_ & _ & [Hsame|[_ Hlater]]).
  - rewrite Hsame in Hfile. discriminate.
  - apply Hlater.
Defined.

(** X18: the confirmation token is the value of the first cookie
    whose name starts with download_warning: cookies in front of it
    that do not match are skipped and the cookies after it are not
    looked at; there is no token exactly when no cookie name
    matches. *)
Theorem confirmation_token_is_first_match :
  forall items,
    (forall front name value rest,
        items = front ++ (name, value) :: rest ->
        String.prefix "download_warning" name = true ->
        (forall kv, In kv front ->
                    String.prefix "download_warning" (fst kv) = false) ->
        download_warning_token items = Some value) /\
    (download_warning_token items = None <->
     forall kv, In kv items ->
                String.prefix "download_warning" (fst kv) = false).
Proof.
  intros items. unfold download_warning_token. split.
  - intros front name value rest -> Hname Hfront.
    induction front as [|kv front IH]; cbn -[String.prefix].
    + now rewrite Hname.
    + rewrite (Hfront kv) by now left.
      apply IH. intros kv' Hin. apply Hfront. now right.
  - induction items as [|kv items IH]; cbn -[String.prefix].
    + split; [intros _ kv []|reflexivity].
    + destruct (String.prefix "download_warning" (fst kv)) eqn:E.
      * split; [discriminate|]. intros H.
        rewrite (H kv) in E by now left. discriminate.
      * rewrite IH. split.
        -- intros H kv' [<-|Hin]; auto.
        -- intros H kv' Hin. apply H. now right.
Qed.

Lemma confirmation_token_witness :
  download_warning_token
    [("NID", "511"); ("download_warning_13058876669334088843", "t0k3n");
     ("download_warning_2", "late")]%string = Some "t0k3n"%string.
Proof.
  destruct (confirmation_token_is_first_match
              [("NID", "511");
               ("download_warning_13058876669334088843", "t0k3n");
               ("download_warning_2", "late")]%string) as [H _].
  apply (H [("NID", "511")]%string
           "download_warning_13058876669334088843"%string "t0k3n"%string
           [("download_warning_2", "late")]%string).
  - reflexivity.
  - reflexivity.
  - intros kv [<-|[]]. reflexivity.
Defined.
